(** * verify_authors.py: the registry verifier

    A shallow embedding of [.github/scripts/verify_authors.py] and the
    properties of its three validation passes.

    The script reads two YAML files, issues HEAD requests and prints a
    report.  The embedding keeps that shape:

    - the parsed files are values of the types in section "Data model";
    - the console and the network are part of an explicit [state]: the
      lines printed so far and the URLs requested so far;
    - a function of the script is a computation in the monad [M], which
      threads the state and may raise a Python exception;
    - the two things the script does not decide itself are parameters:
      what a HEAD request answers ([net]) and the order in which a Python
      [set] of strings is iterated ([set_iter]; it depends on the hash
      seed of the interpreter).

    Handles, URLs and the items of an [authors] field are strings, and a
    registry entry is a mapping, as the schema of the two files has them.
    The value of an author may also be null, on which step 2 raises.  A
    HEAD request returns a status code or raises a
    [requests.RequestException], the two outcomes that the script handles;
    a request that raises an exception of another class, which the script
    does not catch, is outside the embedding. *)

From Stdlib Require Import ZArith Ascii String OrderedTypeEx.
From stdpp Require Import gmap strings list fin_maps sorting pretty.

Open Scope Z_scope.

(* stdpp blocks [simpl] on string append; the proofs below compute with it. *)
Local Arguments String.append : simpl nomatch.

(** ** Strings *)

(** The newline character, for the [\n] inside the printed headers. *)
Definition nl : string := String "010"%char "".

(** Python's [needle in hay] on two [str] values: [needle] occurs in [hay]
    at some position. *)
Fixpoint str_contains (needle hay : string) : bool :=
  String.prefix needle hay ||
  match hay with
  | EmptyString => false
  | String _ hay' => str_contains needle hay'
  end.

(** An f-string field [{error}] where [error] is a [str] or [None]. *)
Definition fmt (error : option string) : string :=
  match error with
  | Some s => s
  | None => "None"
  end.

(** Truth value of [error] in [elif error:]; [None] and the empty string
    are false. *)
Definition truthy (error : option string) : bool :=
  match error with
  | Some (String _ _) => true
  | _ => false
  end.

(** [sorted(xs)] on a list of [str].  Python compares [str] values code
    point by code point; on UTF-8 bytes that is the order of
    [String.compare], which [String.le] wraps. *)
Definition sorted (xs : list string) : list string := merge_sort String.le xs.

(** ** Data model *)

(** The value of one key of [authors.yaml]: a mapping of string fields, or
    null (what YAML yields for a key with nothing after the colon). *)
Inductive details : Type :=
| DNull
| DMap (fields : gmap string string).

(** [authors.yaml]: a dict keeps the order of the file, hence a list of
    items. *)
Definition AuthorsFile : Type := list (string * details).

(** One entry of [registry.yaml]: a mapping; the only field read is
    [authors], a sequence of handles. *)
Definition RegistryEntry : Type := gmap string (list string).
Definition RegistryFile : Type := list RegistryEntry.

(** What [requests.head(url, timeout=10, allow_redirects=True)] does:
    it returns a response with a status code, or raises a
    [requests.RequestException] whose [str] is [msg].  These are the two
    outcomes that the script handles.  An exception of another class (such
    as the one urllib3 raises for a host that it cannot parse) is not
    caught by the [except] clauses and is not an outcome here: what is
    proved of a check or of a run is proved for requests that end in one
    of these two ways. *)
Inductive head_outcome : Type :=
| Response (status_code : Z)
| RequestException (msg : string).

(** ** State and exceptions *)

Record state : Type := mkState {
  stdout : list string;           (* arguments of the [print] calls, oldest first *)
  requests : list string;         (* URLs of the HEAD requests, oldest first *)
  failed_handles : list string;
  failed_urls : list string;
  missing_authors : list string
}.

Inductive exn : Type :=
| TypeError (msg : string)
| KeyError (key : string)
| SystemExit (code : Z).

Inductive result (A : Type) : Type :=
| Ok (a : A)
| Raise (e : exn).
Arguments Ok {A} a.
Arguments Raise {A} e.

Definition M (A : Type) : Type := state -> result A * state.

Global Instance M_ret : MRet M := fun A a s => (Ok a, s).
Global Instance M_bind : MBind M := fun A B f m s =>
  match m s with
  | (Ok a, s') => f a s'
  | (Raise e, s') => (Raise e, s')
  end.

Definition raise {A : Type} (e : exn) : M A := fun s => (Raise e, s).

(** The state after [print(line)]. *)
Definition printed (line : string) (s : state) : state :=
  mkState (stdout s ++ [line]) (requests s)
          (failed_handles s) (failed_urls s) (missing_authors s).

Definition print (line : string) : M unit := fun s => (Ok tt, printed line s).

Definition append_failed_handles (x : string) : M unit := fun s =>
  (Ok tt, mkState (stdout s) (requests s)
                  (failed_handles s ++ [x]) (failed_urls s) (missing_authors s)).

Definition append_failed_urls (x : string) : M unit := fun s =>
  (Ok tt, mkState (stdout s) (requests s)
                  (failed_handles s) (failed_urls s ++ [x]) (missing_authors s)).

Definition append_missing_authors (x : string) : M unit := fun s =>
  (Ok tt, mkState (stdout s) (requests s)
                  (failed_handles s) (failed_urls s) (missing_authors s ++ [x])).

Definition read {A : Type} (f : state -> A) : M A := fun s => (Ok (f s), s).

(** [failed_handles = []; failed_urls = []; missing_authors = []] *)
Definition cleared (s : state) : state :=
  mkState (stdout s) (requests s) [] [] [].

Definition init_lists : M unit := fun s => (Ok tt, cleared s).

(** [for x in xs: body(x)] *)
Fixpoint for_each {A : Type} (xs : list A) (body : A -> M unit) : M unit :=
  match xs with
  | [] => mret tt
  | x :: xs' => body x ;; for_each xs' body
  end.

(** [key in d] and [d[key]] on a details value. *)
Definition contains (key : string) (d : details) : M bool :=
  match d with
  | DMap fields => mret (bool_decide (is_Some (fields !! key)))
  | DNull => raise (TypeError "argument of type 'NoneType' is not iterable")
  end.

Definition getitem (d : details) (key : string) : M string :=
  match d with
  | DMap fields =>
      match fields !! key with
      | Some v => mret v
      | None => raise (KeyError key)
      end
  | DNull => raise (TypeError "'NoneType' object is not subscriptable")
  end.

(** The state after one more HEAD request. *)
Definition log_request (url : string) (s : state) : state :=
  mkState (stdout s) (requests s ++ [url])
          (failed_handles s) (failed_urls s) (missing_authors s).

(** [f"https://github.com/{username}"] *)
Definition profile_url (username : string) : string :=
  "https://github.com/" +:+ username.

(** ** The script *)

Section Script.

(** The answer to a HEAD request for a URL, given the URLs requested
    before it in this run. *)
Variable net : list string -> string -> head_outcome.

(** The order in which a [set] of strings is iterated. *)
Variable set_iter : gset string -> list string.

Definition requests_head (url : string) : M head_outcome := fun s =>
  (Ok (net (requests s) url), log_request url s).

Definition check_github_handle (username : string) : M (bool * option string) :=
  response ← requests_head (profile_url username);
  match response with
  | Response status_code =>
      if status_code =? 404 then mret (false, Some "GitHub profile not found")
      else if status_code >=? 400 then mret (false, Some ("HTTP " +:+ pretty status_code))
      else mret (true, None)
  | RequestException e => mret (false, Some e)
  end.

Definition check_url (url : string) : M (bool * option string) :=
  if str_contains "x.com" url then mret (true, Some "skipped (x.com)")
  else
    response ← requests_head url;
    match response with
    | Response status_code =>
        if status_code >=? 400 then mret (false, Some ("HTTP " +:+ pretty status_code))
        else mret (true, None)
    | RequestException e => mret (false, Some e)
    end.

(** Step 1: verify GitHub handles. *)
Definition step1_body (username : string) : M unit :=
  print ("Checking GitHub handle: " +:+ username +:+ "...");;
  '(success, error) ← check_github_handle username;
  if negb success then
    append_failed_handles (username +:+ " (" +:+ fmt error +:+ ")");;
    print ("  ❌ " +:+ fmt error)
  else
    print "  ✓ OK".

Definition step1 (authors : AuthorsFile) : M unit :=
  print ("=== Verifying GitHub Handles ===" +:+ nl);;
  for_each authors.*1 step1_body.

(** Step 2: verify URLs.  The script has the same block twice, for
    [field = "website"] with [label = "Website"] and for
    [field = "avatar"] with [label = "Avatar"]. *)
Definition check_field (field label username : string) (d : details) : M unit :=
  present ← contains field d;
  if (present : bool) then
    url ← getitem d field;
    '(success, error) ← check_url url;
    if negb success then
      append_failed_urls
        (username +:+ "." +:+ field +:+ ": " +:+ url +:+ " (" +:+ fmt error +:+ ")");;
      print ("  ❌ " +:+ label +:+ " URL: " +:+ url +:+ " (" +:+ fmt error +:+ ")")
    else if truthy error then
      print ("  ⊘ " +:+ label +:+ " URL " +:+ fmt error +:+ ": " +:+ url)
    else
      print ("  ✓ " +:+ label +:+ " URL OK: " +:+ url)
  else mret tt.

Definition step2_body (item : string * details) : M unit :=
  let '(username, d) := item in
  print ("Checking URLs for " +:+ username +:+ "...");;
  check_field "website" "Website" username d;;
  check_field "avatar" "Avatar" username d.

Definition step2 (authors : AuthorsFile) : M unit :=
  print (nl +:+ "=== Verifying Author URLs ===" +:+ nl);;
  for_each authors step2_body.

(** Step 3: verify that the registry's authors exist in authors.yaml. *)
Definition add_entry (registry_authors : gset string) (entry : RegistryEntry)
  : gset string :=
  match entry !! "authors" with
  | Some authors_field =>
      foldl (fun acc author => acc ∪ {[author]}) registry_authors authors_field
  | None => registry_authors
  end.

Definition collect_registry_authors (registry : RegistryFile) : gset string :=
  foldl add_entry ∅ registry.

Definition step3_body (authors : AuthorsFile) (author : string) : M unit :=
  if negb (bool_decide (author ∈ authors.*1)) then
    append_missing_authors author;;
    print ("  ❌ Author '" +:+ author +:+ "' not found in authors.yaml")
  else
    print ("  ✓ " +:+ author).

Definition step3 (authors : AuthorsFile) (registry : RegistryFile) : M unit :=
  print (nl +:+ "=== Verifying Registry Authors ===" +:+ nl);;
  let registry_authors := collect_registry_authors registry in
  print ("Found " +:+ pretty (size registry_authors)
         +:+ " unique authors in registry.yaml");;
  for_each (sorted (set_iter registry_authors)) (step3_body authors).

(** Report results.  The script has the same block three times, one per
    list. *)
Definition report_list (header : string) (entries : list string)
    (has_failures : bool) : M bool :=
  match entries with
  | [] => mret has_failures
  | _ :: _ =>
      print header;;
      for_each entries (fun x => print ("  - " +:+ x));;
      mret true
  end.

Definition report : M unit :=
  let has_failures := false in
  entries ← read failed_handles;
  has_failures ← report_list
    (nl +:+ "❌ The following GitHub handles failed verification:")
    entries has_failures;
  entries ← read failed_urls;
  has_failures ← report_list
    (nl +:+ "❌ The following URLs failed verification:")
    entries has_failures;
  entries ← read missing_authors;
  has_failures ← report_list
    (nl +:+ "❌ The following authors are in registry.yaml but not in authors.yaml:")
    entries has_failures;
  if (has_failures : bool) then raise (SystemExit 1)
  else print (nl +:+ "✓ All verifications passed successfully!").

Definition main (authors : AuthorsFile) (registry : RegistryFile) : M unit :=
  init_lists;;
  step1 authors;;
  step2 authors;;
  step3 authors registry;;
  report.

End Script.

(** The status with which the interpreter exits: 0 when [main] returns,
    the argument of [sys.exit], and 1 after an uncaught exception. *)
Definition exit_status (r : result unit) : Z :=
  match r with
  | Ok _ => 0
  | Raise (SystemExit code) => code
  | Raise _ => 1
  end.

(** A fresh process: nothing printed, nothing requested. *)
Definition start : state := mkState [] [] [] [] [].

(** The last line of the report when nothing failed. *)
Definition success_message : string :=
  nl +:+ "✓ All verifications passed successfully!".

(** The run ended in an exception that nothing catches, rather than by
    reaching the end of [main] or its [sys.exit]. *)
Definition uncaught (r : result unit) : Prop :=
  match r with
  | Raise (TypeError _) | Raise (KeyError _) => True
  | _ => False
  end.

(** Iterating a [set] yields each of its elements once, in some order. *)
Definition set_iteration (set_iter : gset string -> list string) : Prop :=
  forall X, set_iter X ≡ₚ elements X.

(** The request was answered, with a status below 400. *)
Definition succeeds (o : head_outcome) : Prop :=
  match o with
  | Response status_code => status_code < 400
  | RequestException _ => False
  end.

(** Every value of the authors file is a mapping. *)
Definition all_mappings (authors : AuthorsFile) : Prop :=
  forall username, (username, DNull) ∉ authors.

(** The handles that the registry refers to: those listed in the [authors]
    field of some entry. *)
Definition referenced (registry : RegistryFile) (handle : string) : Prop :=
  exists (entry : RegistryEntry) (authors_field : list string),
    entry ∈ registry /\ entry !! "authors" = Some authors_field /\
    handle ∈ authors_field.

(** The URLs that step 2 has to request for one author: the website and
    the avatar when present, unless the x.com rule skips them. *)
Definition urls_to_check (d : details) : list string :=
  match d with
  | DMap fields =>
      filter (fun url => str_contains "x.com" url = false)
             (option_list (fields !! "website") ++ option_list (fields !! "avatar"))
  | DNull => []
  end.

(** The line that step 3 prints for one handle. *)
Definition step3_line (authors : AuthorsFile) (author : string) : string :=
  if bool_decide (author ∈ authors.*1) then "  ✓ " +:+ author
  else "  ❌ Author '" +:+ author +:+ "' not found in authors.yaml".

(** All the HEAD requests of a run, in order. *)
Definition planned_requests (authors : AuthorsFile) : list string :=
  (profile_url <$> authors.*1) ++ (authors.*2 ≫= urls_to_check).

(** ** The host of a URL

    The script never parses a URL; the rule on [x.com] is stated on the
    host of the URL.  [url_host] is the host component as it is written
    in the URL, delimited as RFC 3986 has it: the authority starts after
    ["://"] and runs up to the first ["/"], ["?"] or ["#"]; the host is the
    authority without the user information (up to the last ["@"]) and
    without the port (from [":"] on).  The host that a URL denotes does not
    depend on the case of its letters: [url_hostname] is the host in lower
    case, as [urlparse(url).hostname] gives it. *)

Fixpoint str_drop (n : nat) (s : string) : string :=
  match n, s with
  | O, _ => s
  | S n', String _ s' => str_drop n' s'
  | S _, EmptyString => EmptyString
  end.

(** The text after the first occurrence of [sep]. *)
Fixpoint after_first (sep s : string) : option string :=
  if String.prefix sep s then Some (str_drop (String.length sep) s)
  else
    match s with
    | EmptyString => None
    | String _ s' => after_first sep s'
    end.

(** The text after the last occurrence of the character [c]. *)
Fixpoint after_last (c : ascii) (s : string) : option string :=
  match s with
  | EmptyString => None
  | String a s' =>
      match after_last c s' with
      | Some t => Some t
      | None => if Ascii.eqb a c then Some s' else None
      end
  end.

(** The text before the first character on which [stop] holds. *)
Fixpoint take_until (stop : ascii -> bool) (s : string) : string :=
  match s with
  | EmptyString => EmptyString
  | String a s' => if stop a then EmptyString else String a (take_until stop s')
  end.

Definition ends_authority (a : ascii) : bool :=
  Ascii.eqb a "/" || Ascii.eqb a "?" || Ascii.eqb a "#".

Definition url_host (url : string) : option string :=
  match after_first "://" url with
  | None => None
  | Some rest =>
      let authority := take_until ends_authority rest in
      let hostport := default authority (after_last "@" authority) in
      Some (take_until (fun a => Ascii.eqb a ":") hostport)
  end.




(** [a] occurs in [b]. *)
Definition occurs_in (a b : string) : Prop :=
  exists before after, b = before +:+ a +:+ after.

(** ** Entries of the failure lists

    What a run leaves in the lists and on the console, written from the
    results of the single checks.  [answer] is a network whose answer to
    a request does not depend on the requests made before it. *)

(** The entry that step 1 appends for a handle, if its check fails. *)
Definition handle_entry (answer : string -> head_outcome) (username : string)
  : option string :=
  match (check_github_handle (fun _ => answer) username start).1 with
  | Ok (false, error) => Some (username +:+ " (" +:+ fmt error +:+ ")")
  | _ => None
  end.

(** The entry that step 2 appends for one field of an author, if the field
    is present and its check fails. *)
Definition url_entry (answer : string -> head_outcome) (username field : string)
    (d : details) : option string :=
  match d with
  | DMap fields =>
      match fields !! field with
      | Some url =>
          match (check_url (fun _ => answer) url start).1 with
          | Ok (false, error) =>
              Some (username +:+ "." +:+ field +:+ ": " +:+ url
                    +:+ " (" +:+ fmt error +:+ ")")
          | _ => None
          end
      | None => None
      end
  | DNull => None
  end.

(** The entries of one author: the website first, then the avatar. *)
Definition url_entries (answer : string -> head_outcome) (item : string * details)
  : list string :=
  option_list (url_entry answer item.1 "website" item.2) ++
  option_list (url_entry answer item.1 "avatar" item.2).

(** The lines of the report for one list: nothing for an empty list, else
    the header and one line per entry. *)
Definition report_section (header : string) (entries : list string) : list string :=
  match entries with
  | [] => []
  | _ :: _ => header :: (String.append "  - " <$> entries)
  end.

(** ** Sample runs

    Small inputs on which the theorems below are instantiated. *)

(** Every request is answered with 200. *)
Definition net_ok : list string -> string -> head_outcome :=
  fun _ _ => Response 200.

(** Every request is answered with the given status. *)
Definition net_status (status_code : Z) : list string -> string -> head_outcome :=
  fun _ _ => Response status_code.

(** Every request times out. *)
Definition net_down : list string -> string -> head_outcome :=
  fun _ _ => RequestException "Read timed out. (read timeout=10)".

(** GitHub answers; every other host refuses the connection. *)
Definition net_github_only : list string -> string -> head_outcome :=
  fun _ url =>
    if String.prefix "https://github.com/" url then Response 200
    else RequestException "Connection refused".

Definition alice_with_website : AuthorsFile :=
  [("alice", DMap {["website" := "https://good.example"]})].

Definition alice_plain : AuthorsFile := [("alice", DMap ∅)].

Definition eve_on_x_com : AuthorsFile :=
  [("eve", DMap {["website" := "https://x.com/eve"]})].

Definition eve_then_null : AuthorsFile :=
  [("eve", DMap {["website" := "https://x.com/eve"]}); ("nobody", DNull)].

Definition registry_of (handles : list string) : RegistryFile :=
  [ {["authors" := handles]} ].

(** An authors file whose only key has nothing after the colon. *)
Definition nobody_null : AuthorsFile := [("nobody", DNull)].

(** One dead URL; every other request is answered with 200. *)
Definition answer_dead_avatar : string -> head_outcome :=
  fun url =>
    if String.eqb url "https://dead.example/x" then Response 404 else Response 200.

Definition alice_dead_avatar : AuthorsFile :=
  [("alice", DMap {["avatar" := "https://dead.example/x"]})].

(** The same references as [registry_of ["bob"; "alice"; "bob"]], spread
    over several entries. *)
Definition registry_spread : RegistryFile :=
  [ {["authors" := ["alice"]]}; {["title" := ["untitled"]]};
    {["authors" := ["bob"]]} ].

(** * Properties *)

(** ** Strings *)


Lemma prefix_true_iff (p s : string) :
  String.prefix p s = true <-> exists t, s = p +:+ t.
Proof.
  revert s. induction p as [|a p IH]; intros s.
  - destruct s; simpl; split; eauto.
  - destruct s as [|b s]; simpl.
    + split; [done | intros [t Ht]; discriminate].
    + destruct (ascii_dec a b) as [->|Hab]; simpl.
      * rewrite IH. split; intros [t Ht]; exists t; congruence.
      * split; [done | intros [t Ht]; congruence].
Qed.

Lemma str_contains_true_iff (needle hay : string) :
  str_contains needle hay = true <-> occurs_in needle hay.
Proof.
  unfold occurs_in. induction hay as [|a hay IH]; cbn [str_contains].
  - rewrite orb_false_r, prefix_true_iff. split.
    + intros [t Ht]. by exists "", t.
    + intros ([|b before] & after & H); simpl in H; [eauto | discriminate].
  - rewrite orb_true_iff, prefix_true_iff, IH. split.
    + intros [[t Ht] | (before & after & H)].
      * by exists "", t.
      * exists (String a before), after. simpl. by rewrite H.
    + intros ([|b before] & after & H); simpl in H.
      * left. eauto.
      * right. exists before, after. congruence.
Qed.









(** ** The two checks *)

Section Checks.

Variable net : list string -> string -> head_outcome.

Lemma check_url_skips (url : string) (s : state) :
  occurs_in "x.com" url ->
  check_url net url s = (Ok (true, Some "skipped (x.com)"), s).
Proof.
  intros H. apply str_contains_true_iff in H.
  unfold check_url. by rewrite H.
Qed.

Lemma check_url_requests (url : string) (s : state) :
  str_contains "x.com" url = false ->
  check_url net url s =
    (Ok match net (requests s) url with
        | Response status_code =>
            if status_code >=? 400
            then (false, Some ("HTTP " +:+ pretty status_code))
            else (true, None)
        | RequestException e => (false, Some e)
        end, log_request url s).
Proof.
  intros H. unfold check_url. rewrite H.
  unfold mbind, M_bind, requests_head.
  destruct (net (requests s) url) as [c|e]; [|done].
  by destruct (c >=? 400).
Qed.

Lemma check_url_requested (url : string) (s : state) :
  requests (check_url net url s).2 = requests s ++ [url] ->
  str_contains "x.com" url = false.
Proof.
  destruct (str_contains "x.com" url) eqn:H; [|done].
  apply str_contains_true_iff in H. rewrite check_url_skips by done. simpl.
  intros Heq. apply (f_equal length) in Heq. rewrite length_app in Heq.
  simpl in Heq. lia.
Qed.

(** C3: when the HEAD request for the profile page of a handle is answered
    with status 404, [check_github_handle] returns [False] with the reason
    "GitHub profile not found" (and has made that one request). *)
Theorem check_github_handle_not_found (username : string) (s : state) :
  net (requests s) (profile_url username) = Response 404 ->
  check_github_handle net username s =
    (Ok (false, Some "GitHub profile not found"),
     log_request (profile_url username) s).
Proof.
  intros H. unfold check_github_handle, mbind, M_bind, requests_head.
  by rewrite H.
Qed.

(** C4: when the HEAD request of a check is answered with a status code
    [C >= 400], the check returns [False] with the reason "HTTP C": for
    [check_github_handle] when [C] is not 404, for [check_url] for every
    such [C] whenever it requests the URL at all. *)
Theorem http_error_reason (C : Z) (s : state) :
  400 <= C ->
  (forall username,
     C <> 404 ->
     net (requests s) (profile_url username) = Response C ->
     check_github_handle net username s =
       (Ok (false, Some ("HTTP " +:+ pretty C)),
        log_request (profile_url username) s)) /\
  (forall url,
     requests (check_url net url s).2 = requests s ++ [url] ->
     net (requests s) url = Response C ->
     check_url net url s =
       (Ok (false, Some ("HTTP " +:+ pretty C)), log_request url s)).
Proof.
  intros HC. split.
  - intros username H404 H.
    unfold check_github_handle, mbind, M_bind, requests_head. rewrite H.
    destruct (Z.eqb_spec C 404) as [|_]; [done|].
    destruct (Z.geb_spec C 400) as [_|]; [done | lia].
  - intros url Hreq H. apply check_url_requested in Hreq.
    rewrite check_url_requests, H by done.
    destruct (Z.geb_spec C 400) as [_|]; [done | lia].
Qed.


(** C9: [check_url] skips every URL in which the text "x.com" occurs
    anywhere, whatever the host: it returns [True] with the reason
    "skipped (x.com)" and makes no request. *)
Theorem check_url_skips_any_occurrence (before after : string) (s : state) :
  check_url net (before +:+ "x.com" +:+ after) s =
    (Ok (true, Some "skipped (x.com)"), s) /\
  requests (check_url net (before +:+ "x.com" +:+ after) s).2 = requests s.
Proof.
  assert (check_url net (before +:+ "x.com" +:+ after) s =
            (Ok (true, Some "skipped (x.com)"), s)) as H.
  { apply check_url_skips. by exists before, after. }
  split; [done | by rewrite H].
Qed.

End Checks.

(** ** Running the steps *)

Lemma for_each_app {A : Type} (xs ys : list A) (body : A -> M unit) (s : state) :
  for_each (xs ++ ys) body s =
    match for_each xs body s with
    | (Ok _, s') => for_each ys body s'
    | (Raise e, s') => (Raise e, s')
    end.
Proof.
  revert s. induction xs as [|x xs IH]; intros s; simpl; [done|].
  unfold mbind, M_bind. destruct (body x s) as [[[]|e] s1]; [apply IH | done].
Qed.

Ltac run :=
  unfold mbind, M_bind, mret, M_ret, print, append_failed_handles,
    append_failed_urls, append_missing_authors, read, raise, requests_head,
    log_request, printed; simpl.

(** *** Sets and sorting *)

Lemma elem_of_add_all (X : gset string) (l : list string) (h : string) :
  h ∈ foldl (fun acc author => acc ∪ {[author]}) X l <-> h ∈ X \/ h ∈ l.
Proof.
  revert X. induction l as [|a l IH]; intros X; simpl.
  - rewrite elem_of_nil. tauto.
  - rewrite IH, elem_of_union, elem_of_singleton, elem_of_cons. tauto.
Qed.

Lemma elem_of_foldl_add_entry (X : gset string) (registry : RegistryFile)
    (h : string) :
  h ∈ foldl add_entry X registry <-> h ∈ X \/ referenced registry h.
Proof.
  revert X. induction registry as [|entry registry IH]; intros X; simpl.
  - split; [auto|]. intros [|(e & l & He & _)]; [done|].
    by apply elem_of_nil in He.
  - rewrite IH. unfold add_entry, referenced.
    destruct (entry !! "authors") as [l|] eqn:Hl.
    + rewrite elem_of_add_all. split.
      * intros [[|Hh]|(e & l' & He & Hl' & Hh)]; [auto | |].
        -- right. exists entry, l. split_and!; [left | done..].
        -- right. exists e, l'. split_and!; [by right | done..].
      * intros [|(e & l' & He & Hl' & Hh)]; [auto|].
        apply elem_of_cons in He as [->|He].
        -- left. right. congruence.
        -- right. eauto.
    + split.
      * intros [|(e & l' & He & Hl' & Hh)]; [auto|].
        right. exists e, l'. split_and!; [by right | done..].
      * intros [|(e & l' & He & Hl' & Hh)]; [auto|].
        apply elem_of_cons in He as [->|He]; [congruence|].
        right. eauto.
Qed.

Lemma elem_of_collect (registry : RegistryFile) (h : string) :
  h ∈ collect_registry_authors registry <-> referenced registry h.
Proof.
  unfold collect_registry_authors. rewrite elem_of_foldl_add_entry.
  rewrite elem_of_empty. tauto.
Qed.

Lemma sorted_increasing (xs : list string) :
  NoDup xs -> StronglySorted (strict String.le) (sorted xs).
Proof.
  intros Hnd.
  assert (NoDup (sorted xs)) as Hnd'.
  { unfold sorted. by rewrite merge_sort_Permutation. }
  assert (StronglySorted String.le (sorted xs)) as Hs.
  { apply StronglySorted_merge_sort; apply _. }
  induction Hs as [|x l Hs IH Hall]; [constructor|].
  apply NoDup_cons in Hnd' as [Hx Hnd'].
  constructor; [by apply IH|].
  apply Forall_forall. intros y Hy.
  rewrite Forall_forall in Hall. split; [by apply Hall|].
  intros Hyx. assert (x = y) as -> by (apply (anti_symm String.le); auto).
  done.
Qed.

Lemma sorted_set_iter (it1 it2 : gset string -> list string) (X : gset string) :
  set_iteration it1 -> set_iteration it2 -> sorted (it1 X) = sorted (it2 X).
Proof.
  intros H1 H2. unfold sorted.
  apply (Sorted_unique String.le).
  - apply Sorted_merge_sort, _.
  - apply Sorted_merge_sort, _.
  - rewrite !merge_sort_Permutation. by rewrite (H1 X), (H2 X).
Qed.

Section Steps.

Variable net : list string -> string -> head_outcome.
Variable set_iter : gset string -> list string.

Lemma step1_body_run (username : string) (s : state) :
  exists s',
    step1_body net username s = (Ok tt, s') /\
    requests s' = requests s ++ [profile_url username] /\
    failed_urls s' = failed_urls s /\
    missing_authors s' = missing_authors s /\
    (succeeds (net (requests s) (profile_url username)) ->
     failed_handles s' = failed_handles s).
Proof.
  unfold step1_body, check_github_handle. run.
  destruct (net (requests s) (profile_url username)) as [c|e]; simpl.
  - destruct (Z.eqb_spec c 404); [|destruct (Z.geb_spec c 400)]; run;
      eexists; (split; [reflexivity|]); simpl; split_and!; try done; lia.
  - eexists; (split; [reflexivity|]); simpl; split_and!; done.
Qed.

Lemma step1_run (authors : AuthorsFile) (s : state) :
  exists s',
    step1 net authors s = (Ok tt, s') /\
    requests s' = requests s ++ (profile_url <$> authors.*1) /\
    failed_urls s' = failed_urls s /\
    missing_authors s' = missing_authors s /\
    ((forall log username, username ∈ authors.*1 ->
        succeeds (net log (profile_url username))) ->
     failed_handles s' = failed_handles s).
Proof.
  unfold step1. run.
  set (s1 := mkState _ _ _ _ _).
  change (requests s) with (requests s1).
  change (failed_urls s) with (failed_urls s1).
  change (missing_authors s) with (missing_authors s1).
  change (failed_handles s) with (failed_handles s1).
  generalize s1. clear s s1.
  induction (authors.*1) as [|u us IH]; intros s; simpl.
  - exists s. rewrite app_nil_r. done.
  - destruct (step1_body_run u s) as (s1 & Hrun & Hreq & Hurl & Hmiss & Hfh).
    destruct (IH s1) as (s2 & Hrun2 & Hreq2 & Hurl2 & Hmiss2 & Hfh2).
    exists s2. run. rewrite Hrun, Hrun2.
    rewrite Hreq2, Hreq, Hurl2, Hurl, Hmiss2, Hmiss, <- app_assoc.
    split_and!; try done.
    intros Hnet. rewrite Hfh2, Hfh; [done | | ].
    + apply Hnet. left.
    + intros log u' Hu'. apply Hnet. by right.
Qed.

Lemma check_field_run (field label username : string)
    (fields : gmap string string) (s : state) :
  let urls := filter (fun url => str_contains "x.com" url = false)
                     (option_list (fields !! field)) in
  exists s',
    check_field net field label username (DMap fields) s = (Ok tt, s') /\
    requests s' = requests s ++ urls /\
    failed_handles s' = failed_handles s /\
    missing_authors s' = missing_authors s /\
    ((forall log url, url ∈ urls -> succeeds (net log url)) ->
     failed_urls s' = failed_urls s).
Proof.
  unfold check_field. run.
  destruct (fields !! field) as [url|] eqn:Hf; simpl.
  2:{ exists s. rewrite app_nil_r. done. }
  rewrite filter_cons, filter_nil.
  destruct (str_contains "x.com" url) eqn:Hx.
  - rewrite check_url_skips by (by apply str_contains_true_iff).
    rewrite decide_False by done. simpl.
    eexists; (split; [reflexivity|]); simpl. rewrite app_nil_r. done.
  - rewrite check_url_requests by done. rewrite decide_True by done.
    destruct (net (requests s) url) as [c|e] eqn:Hnet;
      [destruct (Z.geb_spec c 400) as [Hge|Hlt]|]; run;
      eexists; (split; [reflexivity|]); simpl; split_and!; try done;
      intros H; specialize (H (requests s) url ltac:(left));
      rewrite Hnet in H; simpl in H; [lia | done].
Qed.

Lemma step2_body_run (username : string) (fields : gmap string string)
    (s : state) :
  exists s',
    step2_body net (username, DMap fields) s = (Ok tt, s') /\
    requests s' = requests s ++ urls_to_check (DMap fields) /\
    failed_handles s' = failed_handles s /\
    missing_authors s' = missing_authors s /\
    ((forall log url, url ∈ urls_to_check (DMap fields) -> succeeds (net log url)) ->
     failed_urls s' = failed_urls s).
Proof.
  unfold step2_body, mbind, M_bind, print. cbv beta iota.
  destruct (check_field_run "website" "Website" username fields
              (printed ("Checking URLs for " +:+ username +:+ "...") s))
    as (s1 & Hrun1 & Hreq1 & Hfh1 & Hmiss1 & Hurl1).
  destruct (check_field_run "avatar" "Avatar" username fields s1)
    as (s2 & Hrun2 & Hreq2 & Hfh2 & Hmiss2 & Hurl2).
  exists s2. rewrite Hrun1, Hrun2.
  unfold urls_to_check. rewrite filter_app, app_assoc, Hreq2, Hreq1.
  rewrite Hfh2, Hfh1, Hmiss2, Hmiss1.
  split_and!; try done.
  intros Hnet. rewrite Hurl2, Hurl1; [done | |];
    intros log url Hurl; apply Hnet, elem_of_app; auto.
Qed.

Lemma step2_body_null (username : string) (s : state) :
  step2_body net (username, DNull) s =
    (Raise (TypeError "argument of type 'NoneType' is not iterable"),
     printed ("Checking URLs for " +:+ username +:+ "...") s).
Proof. reflexivity. Qed.

Lemma all_mappings_cons (username : string) (d : details) (authors : AuthorsFile) :
  all_mappings ((username, d) :: authors) ->
  (exists fields, d = DMap fields) /\ all_mappings authors.
Proof.
  intros H. split.
  - destruct d as [|fields]; [|eauto]. destruct (H username). left.
  - intros u Hu. apply (H u). by right.
Qed.

Lemma for_each_step2 (authors : AuthorsFile) (s : state) :
  all_mappings authors ->
  exists s',
    for_each authors (step2_body net) s = (Ok tt, s') /\
    requests s' = requests s ++ (authors.*2 ≫= urls_to_check) /\
    failed_handles s' = failed_handles s /\
    missing_authors s' = missing_authors s /\
    ((forall log url, url ∈ authors.*2 ≫= urls_to_check -> succeeds (net log url)) ->
     failed_urls s' = failed_urls s).
Proof.
  revert s. induction authors as [|[u d] authors IH]; intros s Hmap.
  - exists s. simpl. rewrite app_nil_r. done.
  - apply all_mappings_cons in Hmap as [[fields ->] Hmap].
    destruct (step2_body_run u fields s) as (s1 & Hrun1 & Hreq1 & Hfh1 & Hmiss1 & Hurl1).
    destruct (IH s1 Hmap) as (s2 & Hrun2 & Hreq2 & Hfh2 & Hmiss2 & Hurl2).
    exists s2. cbn [for_each]. unfold mbind at 1, M_bind at 1. rewrite Hrun1, Hrun2.
    rewrite Hreq2, Hreq1, Hfh2, Hfh1, Hmiss2, Hmiss1.
    cbn [fmap list_fmap mbind list_bind snd]. rewrite app_assoc.
    split_and!; try done.
    intros Hnet. rewrite Hurl2, Hurl1; [done | |];
      intros log url Hurl; apply Hnet; cbn [fmap list_fmap mbind list_bind snd];
      apply elem_of_app; auto.
Qed.

Lemma step2_unfold (authors : AuthorsFile) (s : state) :
  step2 net authors s =
    for_each authors (step2_body net)
             (printed (nl +:+ "=== Verifying Author URLs ===" +:+ nl) s).
Proof. reflexivity. Qed.

Lemma step2_run (authors : AuthorsFile) (s : state) :
  all_mappings authors ->
  exists s',
    step2 net authors s = (Ok tt, s') /\
    requests s' = requests s ++ (authors.*2 ≫= urls_to_check) /\
    failed_handles s' = failed_handles s /\
    missing_authors s' = missing_authors s /\
    ((forall log url, url ∈ authors.*2 ≫= urls_to_check -> succeeds (net log url)) ->
     failed_urls s' = failed_urls s).
Proof.
  intros Hmap. rewrite step2_unfold.
  apply (for_each_step2 authors
           (printed (nl +:+ "=== Verifying Author URLs ===" +:+ nl) s) Hmap).
Qed.

(** Step 3 as a whole: what it appends to the console and to
    [missing_authors]. *)
Lemma step3_body_run (authors : AuthorsFile) (a : string) (s : state) :
  step3_body authors a s =
    (Ok tt,
     mkState (stdout s ++ [step3_line authors a]) (requests s)
             (failed_handles s) (failed_urls s)
             (missing_authors s ++ filter (fun a => a ∉ authors.*1) [a])).
Proof.
  unfold step3_body, step3_line. rewrite filter_cons, filter_nil.
  destruct (decide (a ∈ authors.*1)) as [Hin|Hout].
  - rewrite bool_decide_true, decide_False by eauto. by rewrite app_nil_r.
  - rewrite bool_decide_false, decide_True by eauto. reflexivity.
Qed.

Lemma for_each_step3 (authors : AuthorsFile) (handles : list string) (s : state) :
  for_each handles (step3_body authors) s =
    (Ok tt,
     mkState (stdout s ++ (step3_line authors <$> handles)) (requests s)
             (failed_handles s) (failed_urls s)
             (missing_authors s ++ filter (fun a => a ∉ authors.*1) handles)).
Proof.
  revert s. induction handles as [|a handles IH]; intros s.
  - simpl. rewrite !app_nil_r. by destruct s.
  - cbn [for_each]. unfold mbind at 1, M_bind at 1.
    rewrite step3_body_run, IH.
    cbn [stdout requests failed_handles failed_urls missing_authors].
    rewrite <- !app_assoc. rewrite <- filter_app. reflexivity.
Qed.

Lemma step3_run (authors : AuthorsFile) (registry : RegistryFile) (s : state) :
  let registry_authors := collect_registry_authors registry in
  let checked := sorted (set_iter registry_authors) in
  step3 set_iter authors registry s =
    (Ok tt,
     mkState (stdout s ++
                [nl +:+ "=== Verifying Registry Authors ===" +:+ nl;
                 "Found " +:+ pretty (size registry_authors)
                   +:+ " unique authors in registry.yaml"] ++
                (step3_line authors <$> checked))
             (requests s) (failed_handles s) (failed_urls s)
             (missing_authors s ++ filter (fun a => a ∉ authors.*1) checked)).
Proof.
  intros registry_authors checked.
  unfold step3, mbind, M_bind, print. cbv beta iota zeta.
  fold registry_authors. fold checked. rewrite for_each_step3.
  unfold printed. cbn [stdout requests failed_handles failed_urls missing_authors].
  by rewrite <- !app_assoc.
Qed.

Lemma for_each_print (f : string -> string) (xs : list string) (s : state) :
  for_each xs (fun x => print (f x)) s =
    (Ok tt,
     mkState (stdout s ++ (f <$> xs)) (requests s)
             (failed_handles s) (failed_urls s) (missing_authors s)).
Proof.
  revert s. induction xs as [|x xs IH]; intros s.
  - simpl. rewrite app_nil_r. by destruct s.
  - cbn [for_each]. unfold mbind at 1, M_bind at 1, print at 1.
    rewrite IH. unfold printed.
    cbn [stdout requests failed_handles failed_urls missing_authors fmap list_fmap].
    by rewrite <- app_assoc.
Qed.

Lemma report_list_run (header : string) (entries : list string)
    (has_failures : bool) (s : state) :
  exists s',
    report_list header entries has_failures s =
      (Ok (has_failures || bool_decide (entries ≠ [])), s') /\
    requests s' = requests s /\
    failed_handles s' = failed_handles s /\
    failed_urls s' = failed_urls s /\
    missing_authors s' = missing_authors s /\
    (entries = [] -> s' = s).
Proof.
  destruct entries as [|x entries].
  - exists s. simpl. rewrite orb_false_r. done.
  - unfold report_list, mbind, M_bind, print at 1. cbv beta iota.
    rewrite for_each_print. rewrite orb_true_r.
    eexists. split; [reflexivity|]. done.
Qed.

Lemma report_run (s : state) :
  exists s',
    report s =
      (if bool_decide (failed_handles s = [] /\ failed_urls s = [] /\
                       missing_authors s = [])
       then Ok tt else Raise (SystemExit 1), s') /\
    requests s' = requests s /\
    failed_handles s' = failed_handles s /\
    failed_urls s' = failed_urls s /\
    missing_authors s' = missing_authors s /\
    (failed_handles s = [] -> failed_urls s = [] -> missing_authors s = [] ->
     s' = printed success_message s).
Proof.
  unfold report, mbind, M_bind, read. cbv beta iota zeta.
  destruct (report_list_run
              (nl +:+ "❌ The following GitHub handles failed verification:")
              (failed_handles s) false s)
    as (s1 & -> & Hreq1 & Hfh1 & Hurl1 & Hmiss1 & Hsame1).
  destruct (report_list_run
              (nl +:+ "❌ The following URLs failed verification:")
              (failed_urls s1) (false || bool_decide (failed_handles s ≠ [])) s1)
    as (s2 & -> & Hreq2 & Hfh2 & Hurl2 & Hmiss2 & Hsame2).
  destruct (report_list_run
              (nl +:+ "❌ The following authors are in registry.yaml but not in authors.yaml:")
              (missing_authors s2)
              (false || bool_decide (failed_handles s ≠ [])
               || bool_decide (failed_urls s1 ≠ [])) s2)
    as (s3 & -> & Hreq3 & Hfh3 & Hurl3 & Hmiss3 & Hsame3).
  rewrite Hmiss2, Hmiss1, Hurl1 in *.
  destruct (failed_handles s) as [|h hs] eqn:Eh;
    destruct (failed_urls s) as [|u us] eqn:Eu;
    destruct (missing_authors s) as [|m ms] eqn:Em;
    cbn [orb bool_decide decide_rel]; simpl.
  1:{ rewrite Hsame3, Hsame2, Hsame1 by done. unfold print.
      eexists. split; [reflexivity|]. done. }
  all: unfold raise; exists s3; split; [reflexivity|];
    rewrite Hreq3, Hreq2, Hreq1, Hfh3, Hfh2, Hfh1, Hurl3, Hurl2, Hmiss3;
    split_and!; done.
Qed.

(** *** The whole run *)

Lemma main_unfold (authors : AuthorsFile) (registry : RegistryFile) (s0 : state) :
  main net set_iter authors registry s0 =
    match step1 net authors (cleared s0) with
    | (Ok _, s1) =>
        match step2 net authors s1 with
        | (Ok _, s2) =>
            match step3 set_iter authors registry s2 with
            | (Ok _, s3) => report s3
            | (Raise e, s3) => (Raise e, s3)
            end
        | (Raise e, s2) => (Raise e, s2)
        end
    | (Raise e, s1) => (Raise e, s1)
    end.
Proof. reflexivity. Qed.

Lemma authors_cases (authors : AuthorsFile) :
  all_mappings authors \/
  exists before username after,
    authors = before ++ (username, DNull) :: after /\ all_mappings before.
Proof.
  induction authors as [|[u d] authors IH].
  - left. intros u Hu. by apply elem_of_nil in Hu.
  - destruct d as [|fields].
    + right. exists [], u, authors. split; [done|].
      intros u' Hu'. by apply elem_of_nil in Hu'.
    + destruct IH as [Hall|(before & u' & after & -> & Hall)].
      * left. intros u' [[=]|Hu']%elem_of_cons. by apply (Hall u').
      * right. exists ((u, DMap fields) :: before), u', after. split; [done|].
        intros u'' [[=]|Hu'']%elem_of_cons. by apply (Hall u'').
Qed.

(** With a mapping for every author, the three steps run to the end;
    the report then starts from a state [s3] that holds their results. *)
Lemma main_complete (authors : AuthorsFile) (registry : RegistryFile) (s0 : state) :
  all_mappings authors ->
  exists s3,
    main net set_iter authors registry s0 = report s3 /\
    requests s3 = requests s0 ++ planned_requests authors /\
    missing_authors s3 =
      filter (fun a => a ∉ authors.*1)
             (sorted (set_iter (collect_registry_authors registry))) /\
    ((forall log url, url ∈ planned_requests authors -> succeeds (net log url)) ->
     failed_handles s3 = [] /\ failed_urls s3 = []).
Proof.
  intros Hmap. rewrite main_unfold.
  destruct (step1_run authors (cleared s0)) as (s1 & -> & Hreq1 & Hurl1 & Hmiss1 & Hfh1).
  destruct (step2_run authors s1 Hmap) as (s2 & -> & Hreq2 & Hfh2 & Hmiss2 & Hurl2).
  rewrite step3_run. eexists. split; [reflexivity|].
  cbn [requests failed_handles failed_urls missing_authors].
  rewrite Hreq2, Hreq1, Hmiss2, Hmiss1, Hfh2. unfold planned_requests.
  cbn [cleared requests missing_authors app]. rewrite <- app_assoc.
  split_and!; try done.
  intros Hnet. rewrite Hurl2, Hurl1, Hfh1; [done | |].
  - intros log u Hu. apply Hnet, elem_of_app. left.
    by apply list_elem_of_fmap_2.
  - intros log url Hurl. apply Hnet, elem_of_app. by right.
Qed.

(** With a null value for some author, the run dies in step 2 at the
    first such author. *)
Lemma main_crash (before after : AuthorsFile) (username : string)
    (registry : RegistryFile) (s0 : state) :
  all_mappings before ->
  let authors := before ++ (username, DNull) :: after in
  exists s1 s2,
    step1 net authors (cleared s0) = (Ok tt, s1) /\
    step2 net before s1 = (Ok tt, s2) /\
    main net set_iter authors registry s0 =
      (Raise (TypeError "argument of type 'NoneType' is not iterable"),
       printed ("Checking URLs for " +:+ username +:+ "...") s2).
Proof.
  intros Hmap authors. rewrite main_unfold.
  destruct (step1_run authors (cleared s0)) as (s1 & Hrun1 & _).
  destruct (step2_run before s1 Hmap) as (s2 & Hrun2 & _).
  exists s1, s2. rewrite Hrun1. split_and!; [done..|].
  rewrite step2_unfold in *.
  unfold authors. rewrite for_each_app, Hrun2. reflexivity.
Qed.

(** The run as a whole when every author has a mapping: the report
    decides the outcome from the three lists, which it leaves as they
    are. *)
Lemma main_run (authors : AuthorsFile) (registry : RegistryFile) (s0 : state) :
  all_mappings authors ->
  exists s,
    main net set_iter authors registry s0 =
      (if bool_decide (failed_handles s = [] /\ failed_urls s = [] /\
                       missing_authors s = [])
       then Ok tt else Raise (SystemExit 1), s) /\
    requests s = requests s0 ++ planned_requests authors /\
    missing_authors s =
      filter (fun a => a ∉ authors.*1)
             (sorted (set_iter (collect_registry_authors registry))) /\
    ((forall log url, url ∈ planned_requests authors -> succeeds (net log url)) ->
     failed_handles s = [] /\ failed_urls s = []) /\
    (failed_handles s = [] -> failed_urls s = [] -> missing_authors s = [] ->
     last (stdout s) = Some success_message).
Proof.
  intros Hmap.
  destruct (main_complete authors registry s0 Hmap)
    as (s3 & -> & Hreq & Hmiss & Hok).
  destruct (report_run s3) as (s & Hrun & Hreq' & Hfh' & Hurl' & Hmiss' & Hsucc).
  exists s. rewrite Hfh', Hurl', Hmiss', Hreq'. split_and!; try done.
  intros Hh Hu Hm. rewrite Hsucc by done. apply last_snoc.
Qed.

End Steps.

(** ** The claims about the whole run *)

(** The report on its own, from any state: the three lists decide. *)
Lemma report_exit (s : state) :
  let r := (report s).1 in
  let s' := (report s).2 in
  (failed_handles s' = failed_handles s /\ failed_urls s' = failed_urls s /\
   missing_authors s' = missing_authors s) /\
  (exit_status r = 1 <->
     failed_handles s <> [] \/ failed_urls s <> [] \/ missing_authors s <> []) /\
  (failed_handles s = [] -> failed_urls s = [] -> missing_authors s = [] ->
     r = Ok tt /\ exit_status r = 0 /\ s' = printed success_message s).
Proof.
  intros r s'. subst r s'.
  destruct (report_run s) as (s' & -> & _ & Hh & Hu & Hm & Hsucc).
  cbn [fst snd]. split; [done|].
  case_bool_decide as Hlists; cbn [exit_status].
  - destruct Hlists as (Eh & Eu & Em). split; [|auto].
    split; [done|]. intros [|[|]]; done.
  - split.
    + split; [|done]. intros _.
      destruct (failed_handles s); [|auto].
      destruct (failed_urls s); [|auto].
      destruct (missing_authors s); [|auto].
      destruct Hlists; done.
    + intros Eh Eu Em. destruct Hlists; done.
Qed.

(** C1, as amended: the report exits with status 1 exactly when one of the
    three lists (failed handles, failed URLs, missing authors) is
    non-empty; otherwise it prints the success message and the status is 0.
    The report leaves the lists as they are, so this holds of the lists at
    the end of every run of [main] that reaches the report.  It does not
    hold of a run that dies before the report: that one exits with status 1
    whatever the lists hold. *)
Theorem main_exit_status :
  (forall s,
     let r := (report s).1 in
     let s' := (report s).2 in
     (failed_handles s' = failed_handles s /\ failed_urls s' = failed_urls s /\
      missing_authors s' = missing_authors s) /\
     (exit_status r = 1 <->
        failed_handles s <> [] \/ failed_urls s <> [] \/ missing_authors s <> []) /\
     (failed_handles s = [] -> failed_urls s = [] -> missing_authors s = [] ->
        r = Ok tt /\ exit_status r = 0 /\ s' = printed success_message s)) /\
  (forall net set_iter authors registry s0,
     let r := (main net set_iter authors registry s0).1 in
     let s := (main net set_iter authors registry s0).2 in
     ~ uncaught r ->
     (exit_status r = 1 <->
        failed_handles s <> [] \/ failed_urls s <> [] \/ missing_authors s <> []) /\
     (failed_handles s = [] -> failed_urls s = [] -> missing_authors s = [] ->
        r = Ok tt /\ exit_status r = 0 /\ last (stdout s) = Some success_message)).
Proof.
  split; [exact report_exit|].
  intros net set_iter authors registry s0 r s. subst r s.
  destruct (authors_cases authors) as [Hmap|(before & u & after & -> & Hmap)].
  - destruct (main_complete net set_iter authors registry s0 Hmap)
      as (s3 & -> & _).
    intros _. destruct (report_exit s3) as ((Hh & Hu & Hm) & Hiff & Hclean).
    rewrite Hh, Hu, Hm. split; [exact Hiff|].
    intros Eh Eu Em. destruct (Hclean Eh Eu Em) as (Hr & Hst & Hs').
    split_and!; [done..|]. rewrite Hs'. apply last_snoc.
  - destruct (main_crash net set_iter before after u registry s0 Hmap)
      as (s1 & s2 & _ & _ & ->).
    cbn [fst]. intros []. exact I.
Qed.

(** C2: step 3 checks the handles that the registry refers to, each once
    and in increasing order, and appends to the missing authors exactly
    those that are not keys of the authors file; an entry without an
    [authors] field adds nothing.  In a run that reaches the report, the
    missing authors are therefore exactly the referenced handles minus the
    keys. *)
Theorem missing_authors_exact (set_iter : gset string -> list string)
    (authors : AuthorsFile) (registry : RegistryFile) :
  set_iteration set_iter ->
  exists checked : list string,
    StronglySorted (strict String.le) checked /\
    (forall h, h ∈ checked <-> referenced registry h) /\
    (forall (X : gset string) (entry : RegistryEntry),
       entry !! "authors" = None -> add_entry X entry = X) /\
    (forall s,
       let s' := (step3 set_iter authors registry s).2 in
       (step3 set_iter authors registry s).1 = Ok tt /\
       stdout s' =
         stdout s ++
           [nl +:+ "=== Verifying Registry Authors ===" +:+ nl;
            "Found " +:+ pretty (length checked) +:+ " unique authors in registry.yaml"] ++
           (step3_line authors <$> checked) /\
       missing_authors s' =
         missing_authors s ++ filter (fun a => a ∉ authors.*1) checked) /\
    (forall h, h ∈ filter (fun a => a ∉ authors.*1) checked <->
               referenced registry h /\ h ∉ authors.*1) /\
    (forall net s0,
       let run := main net set_iter authors registry s0 in
       ~ uncaught run.1 ->
       missing_authors run.2 = filter (fun a => a ∉ authors.*1) checked).
Proof.
  intros Hiter.
  set (registry_authors := collect_registry_authors registry).
  exists (sorted (set_iter registry_authors)).
  assert (forall h, h ∈ sorted (set_iter registry_authors) <-> referenced registry h)
    as Hmem.
  { intros h. unfold sorted. rewrite merge_sort_Permutation, (Hiter registry_authors).
    rewrite elem_of_elements. apply elem_of_collect. }
  split_and!.
  - apply sorted_increasing. rewrite (Hiter registry_authors). apply NoDup_elements.
  - exact Hmem.
  - intros X entry Hnone. unfold add_entry. by rewrite Hnone.
  - intros s. rewrite step3_run. cbn [fst snd stdout missing_authors].
    split_and!; [done | | done].
    do 4 f_equal. unfold sorted.
    rewrite merge_sort_Permutation, (Hiter registry_authors). reflexivity.
  - intros h. rewrite list_elem_of_filter, Hmem. tauto.
  - intros net s0 run. subst run.
    destruct (authors_cases authors) as [Hmap|(before & u & after & -> & Hmap)].
    + destruct (main_run net set_iter authors registry s0 Hmap)
        as (s & -> & _ & Hmiss & _). cbn [fst snd]. intros _. exact Hmiss.
    + destruct (main_crash net set_iter before after u registry s0 Hmap)
        as (s1 & s2 & _ & _ & ->).
      cbn [fst]. intros []. exact I.
Qed.

(** C6: a skipped URL only adds the informational line: the state after
    [check_field] differs from the one before by that line alone, so
    nothing is appended to the failed URLs.  Hence a run in which every
    request that is made succeeds, and every referenced handle is defined,
    exits with status 0 with three empty lists, whatever x.com URLs the
    authors have and whatever a request to them would have answered. *)
Theorem skipped_is_not_failure (net : list string -> string -> head_outcome)
    (set_iter : gset string -> list string) :
  (forall field label username fields url s,
     fields !! field = Some url ->
     occurs_in "x.com" url ->
     check_field net field label username (DMap fields) s =
       (Ok tt, printed ("  ⊘ " +:+ label +:+ " URL skipped (x.com): " +:+ url) s)) /\
  (forall authors registry s0,
     set_iteration set_iter ->
     all_mappings authors ->
     (forall log url, url ∈ planned_requests authors -> succeeds (net log url)) ->
     (forall h, referenced registry h -> h ∈ authors.*1) ->
     exists s,
       main net set_iter authors registry s0 = (Ok tt, s) /\
       exit_status (main net set_iter authors registry s0).1 = 0 /\
       failed_handles s = [] /\ failed_urls s = [] /\ missing_authors s = []).
Proof.
  split.
  - intros field label username fields url s Hf Hx.
    unfold check_field, contains, getitem, mbind, M_bind, mret, M_ret.
    rewrite Hf, bool_decide_true by eauto.
    rewrite check_url_skips by done. reflexivity.
  - intros authors registry s0 Hiter Hmap Hnet Href.
    destruct (main_run net set_iter authors registry s0 Hmap)
      as (s & Hrun & _ & Hmiss & Hok & _).
    destruct (Hok Hnet) as [Hh Hu].
    assert (missing_authors s = []) as Hm.
    { rewrite Hmiss. apply elem_of_nil_inv. intros h Hh'.
      apply list_elem_of_filter in Hh' as [Hout Hin]. apply Hout, Href.
      apply elem_of_collect. apply elem_of_elements.
      rewrite <- (Hiter (collect_registry_authors registry)).
      unfold sorted in Hin. by rewrite merge_sort_Permutation in Hin. }
    exists s. rewrite Hrun. rewrite bool_decide_true by done. done.
Qed.

(** C7: a request that raises a transport error makes its check return
    [False] with the text of the error as the reason, in
    [check_github_handle] and in [check_url] alike; the exception goes no
    further.  So whatever the network does, a run over well-formed files
    makes every planned request and ends in the report, by returning or by
    [sys.exit(1)]. *)
Theorem transport_error_recorded (net : list string -> string -> head_outcome) :
  (forall username msg s,
     net (requests s) (profile_url username) = RequestException msg ->
     check_github_handle net username s =
       (Ok (false, Some msg), log_request (profile_url username) s)) /\
  (forall url msg s,
     requests (check_url net url s).2 = requests s ++ [url] ->
     net (requests s) url = RequestException msg ->
     check_url net url s = (Ok (false, Some msg), log_request url s)) /\
  (forall set_iter authors registry s0,
     all_mappings authors ->
     let run := main net set_iter authors registry s0 in
     (run.1 = Ok tt \/ run.1 = Raise (SystemExit 1)) /\
     requests run.2 = requests s0 ++ planned_requests authors).
Proof.
  split_and!.
  - intros username msg s H.
    unfold check_github_handle, mbind, M_bind, requests_head. by rewrite H.
  - intros url msg s Hreq H. apply check_url_requested in Hreq.
    by rewrite check_url_requests, H.
  - intros set_iter authors registry s0 Hmap run. subst run.
    destruct (main_run net set_iter authors registry s0 Hmap)
      as (s & -> & Hreq & _). cbn [fst snd].
    split; [case_bool_decide; auto | exact Hreq].
Qed.

(** C8: the outcome of a run is a function of the two files and of the
    answers of the network: the order in which the interpreter happens to
    iterate the set of registry authors does not show, because step 3
    sorts it.  Two runs agree on the exit status, on the three lists and on
    every line printed. *)
Theorem main_deterministic (net : list string -> string -> head_outcome)
    (set_iter1 set_iter2 : gset string -> list string)
    (authors : AuthorsFile) (registry : RegistryFile) (s0 : state) :
  set_iteration set_iter1 ->
  set_iteration set_iter2 ->
  main net set_iter1 authors registry s0 = main net set_iter2 authors registry s0.
Proof.
  intros H1 H2. rewrite !main_unfold.
  destruct (step1 net authors (cleared s0)) as [[[]|e1] s1]; [|done].
  destruct (step2 net authors s1) as [[[]|e2] s2]; [|done].
  rewrite !step3_run.
  by rewrite (sorted_set_iter set_iter1 set_iter2 _ H1 H2).
Qed.

(** C10: step 2 needs a mapping for every author.  When some key of the
    authors file has a null value, step 1 still runs over all the
    authors, step 2 runs up to the first such key, prints its "Checking
    URLs" line and dies there with the [TypeError] of the membership test;
    step 3 and the report never run and the process exits with status 1.
    With mappings everywhere the run reaches the report. *)
Theorem null_details_abort (net : list string -> string -> head_outcome)
    (set_iter : gset string -> list string)
    (authors : AuthorsFile) (registry : RegistryFile) (s0 : state) :
  ((exists username, (username, DNull) ∈ authors) ->
   exists before first after s1 s2,
     authors = before ++ (first, DNull) :: after /\
     all_mappings before /\
     step1 net authors (cleared s0) = (Ok tt, s1) /\
     step2 net before s1 = (Ok tt, s2) /\
     main net set_iter authors registry s0 =
       (Raise (TypeError "argument of type 'NoneType' is not iterable"),
        printed ("Checking URLs for " +:+ first +:+ "...") s2) /\
     exit_status (main net set_iter authors registry s0).1 = 1) /\
  (all_mappings authors ->
   ~ uncaught (main net set_iter authors registry s0).1).
Proof.
  split.
  - intros [username Hnull].
    destruct (authors_cases authors) as [Hmap|(before & u & after & Heq & Hmap)].
    { destruct (Hmap username Hnull). }
    subst authors.
    destruct (main_crash net set_iter before after u registry s0 Hmap)
      as (s1 & s2 & Hrun1 & Hrun2 & Hmain).
    exists before, u, after, s1, s2. rewrite Hmain. done.
  - intros Hmap.
    destruct (main_run net set_iter authors registry s0 Hmap) as (s & -> & _).
    cbn [fst]. case_bool_decide; intros [].
Qed.

(** ** Instances on the sample runs *)

Lemma check_github_handle_not_found_witness :
  net_status 404 (requests start) (profile_url "ghost") = Response 404 /\
  check_github_handle (net_status 404) "ghost" start =
    (Ok (false, Some "GitHub profile not found"),
     log_request "https://github.com/ghost" start).
Proof.
  split; [reflexivity|].
  apply (check_github_handle_not_found (net_status 404) "ghost" start).
  reflexivity.
Defined.

Lemma http_error_reason_witness :
  400 <= 503 /\
  check_github_handle (net_status 503) "alice" start =
    (Ok (false, Some "HTTP 503"), log_request "https://github.com/alice" start) /\
  check_url (net_status 503) "https://good.example" start =
    (Ok (false, Some "HTTP 503"), log_request "https://good.example" start).
Proof.
  split; [lia|].
  destruct (http_error_reason (net_status 503) 503 start ltac:(lia)) as [Hh Hu].
  split.
  - apply (Hh "alice"); [lia | reflexivity].
  - apply (Hu "https://good.example"); reflexivity.
Defined.


Lemma main_exit_status_witness :
  let r := (main net_ok elements alice_plain (registry_of ["bob"]) start).1 in
  let s := (main net_ok elements alice_plain (registry_of ["bob"]) start).2 in
  ~ uncaught r /\
  (exit_status r = 1 <->
     failed_handles s <> [] \/ failed_urls s <> [] \/ missing_authors s <> []) /\
  (failed_handles s = [] -> failed_urls s = [] -> missing_authors s = [] ->
     r = Ok tt /\ exit_status r = 0 /\ last (stdout s) = Some success_message).
Proof.
  intros r s.
  assert (~ uncaught r) as H by (vm_compute; intros []).
  split; [exact H|].
  exact (proj2 main_exit_status net_ok elements alice_plain
           (registry_of ["bob"]) start H).
Defined.

Lemma set_iteration_elements : set_iteration elements.
Proof. intros X. reflexivity. Defined.

Lemma set_iteration_reverse : set_iteration (fun X => reverse (elements X)).
Proof. intros X. apply reverse_Permutation. Defined.

Lemma all_mappings_alice_plain : all_mappings alice_plain.
Proof.
  intros u Hu. apply list_elem_of_singleton in Hu. discriminate.
Defined.

Lemma all_mappings_eve_on_x_com : all_mappings eve_on_x_com.
Proof.
  intros u Hu. apply list_elem_of_singleton in Hu. discriminate.
Defined.

Lemma missing_authors_exact_witness :
  let set_iter := fun X : gset string => reverse (elements X) in
  let registry := registry_of ["carol"; "alice"; "bob"; "carol"] in
  set_iteration set_iter /\
  exists checked : list string,
    StronglySorted (strict String.le) checked /\
    (forall h, h ∈ checked <-> referenced registry h) /\
    missing_authors (step3 set_iter alice_plain registry start).2 =
      missing_authors start ++ filter (fun a => a ∉ alice_plain.*1) checked /\
    (forall h, h ∈ filter (fun a => a ∉ alice_plain.*1) checked <->
               referenced registry h /\ h ∉ alice_plain.*1).
Proof.
  intros set_iter registry.
  split; [exact set_iteration_reverse|].
  destruct (missing_authors_exact set_iter alice_plain registry
              set_iteration_reverse)
    as (checked & Hsorted & Hmem & _ & Hstep & Hexact & _).
  exists checked. split_and!; [done | done | apply Hstep | done].
Defined.

Example missing_authors_sample :
  missing_authors
    (step3 (fun X => reverse (elements X)) alice_plain
           (registry_of ["carol"; "alice"; "bob"; "carol"]) start).2 =
    ["bob"; "carol"].
Proof. vm_compute. reflexivity. Qed.

Lemma referenced_registry_of (handles : list string) (h : string) :
  referenced (registry_of handles) h -> h ∈ handles.
Proof.
  intros (entry & l & He & Hl & Hh).
  apply list_elem_of_singleton in He as ->.
  unfold RegistryEntry in *.
  rewrite lookup_singleton_eq in Hl. congruence.
Defined.

Lemma skipped_is_not_failure_witness :
  let registry := registry_of ["eve"] in
  (set_iteration elements /\
   all_mappings eve_on_x_com /\
   (forall log url,
      url ∈ planned_requests eve_on_x_com -> succeeds (net_github_only log url)) /\
   (forall h, referenced registry h -> h ∈ eve_on_x_com.*1)) /\
  check_field net_github_only "website" "Website" "eve"
              (DMap {["website" := "https://x.com/eve"]}) start =
    (Ok tt, printed "  ⊘ Website URL skipped (x.com): https://x.com/eve" start) /\
  exists s,
    main net_github_only elements eve_on_x_com registry start = (Ok tt, s) /\
    exit_status (main net_github_only elements eve_on_x_com registry start).1 = 0 /\
    failed_handles s = [] /\ failed_urls s = [] /\ missing_authors s = [].
Proof.
  intros registry.
  assert (forall log url,
            url ∈ planned_requests eve_on_x_com ->
            succeeds (net_github_only log url)) as Hnet.
  { intros log url Hurl. vm_compute in Hurl.
    apply list_elem_of_singleton in Hurl as ->. reflexivity. }
  assert (forall h, referenced registry h -> h ∈ eve_on_x_com.*1) as Href.
  { intros h Hh. apply referenced_registry_of in Hh. exact Hh. }
  split; [split_and!;
            [exact set_iteration_elements | exact all_mappings_eve_on_x_com
            | exact Hnet | exact Href]|].
  destruct (skipped_is_not_failure net_github_only elements) as [Hfield Hrun].
  split.
  - apply (Hfield "website" "Website" "eve"
             {["website" := "https://x.com/eve"]} "https://x.com/eve" start).
    + reflexivity.
    + apply str_contains_true_iff. reflexivity.
  - exact (Hrun eve_on_x_com registry start set_iteration_elements
             all_mappings_eve_on_x_com Hnet Href).
Defined.

Lemma transport_error_recorded_witness :
  check_github_handle net_down "alice" start =
    (Ok (false, Some "Read timed out. (read timeout=10)"),
     log_request "https://github.com/alice" start) /\
  check_url net_down "https://good.example" start =
    (Ok (false, Some "Read timed out. (read timeout=10)"),
     log_request "https://good.example" start) /\
  all_mappings alice_plain /\
  let run := main net_down elements alice_plain (registry_of ["alice"]) start in
  (run.1 = Ok tt \/ run.1 = Raise (SystemExit 1)) /\
  requests run.2 = requests start ++ planned_requests alice_plain.
Proof.
  destruct (transport_error_recorded net_down) as (Hh & Hu & Hrun).
  split_and!.
  - apply (Hh "alice"). reflexivity.
  - apply (Hu "https://good.example"); reflexivity.
  - exact all_mappings_alice_plain.
  - exact (Hrun elements alice_plain (registry_of ["alice"]) start
             all_mappings_alice_plain).
Defined.

Lemma main_deterministic_witness :
  set_iteration elements /\
  set_iteration (fun X => reverse (elements X)) /\
  main net_ok elements alice_plain
       (registry_of ["carol"; "alice"; "bob"; "carol"]) start =
  main net_ok (fun X => reverse (elements X)) alice_plain
       (registry_of ["carol"; "alice"; "bob"; "carol"]) start.
Proof.
  split_and!; [exact set_iteration_elements | exact set_iteration_reverse|].
  exact (main_deterministic net_ok elements (fun X => reverse (elements X))
           alice_plain (registry_of ["carol"; "alice"; "bob"; "carol"]) start
           set_iteration_elements set_iteration_reverse).
Defined.

Lemma null_details_abort_witness :
  (exists username, (username, DNull) ∈ eve_then_null) /\
  exists before first after s1 s2,
    eve_then_null = before ++ (first, DNull) :: after /\
    all_mappings before /\
    step1 net_ok eve_then_null (cleared start) = (Ok tt, s1) /\
    step2 net_ok before s1 = (Ok tt, s2) /\
    main net_ok elements eve_then_null (registry_of ["eve"]) start =
      (Raise (TypeError "argument of type 'NoneType' is not iterable"),
       printed ("Checking URLs for " +:+ first +:+ "...") s2) /\
    exit_status (main net_ok elements eve_then_null (registry_of ["eve"]) start).1 = 1.
Proof.
  assert (exists username, (username, DNull) ∈ eve_then_null) as Hnull.
  { exists "nobody". right. left. }
  split; [exact Hnull|].
  exact (proj1 (null_details_abort net_ok elements eve_then_null
                  (registry_of ["eve"]) start) Hnull).
Defined.

(** The sample runs, evaluated. *)

Example run_all_clean :
  let run := main net_ok elements alice_with_website (registry_of ["alice"]) start in
  exit_status run.1 = 0 /\
  requests run.2 = ["https://github.com/alice"; "https://good.example"] /\
  failed_handles run.2 = [] /\ failed_urls run.2 = [] /\ missing_authors run.2 = [].
Proof. vm_compute. done. Qed.

Example run_missing_author :
  let run := main net_ok elements alice_plain (registry_of ["bob"]) start in
  run.1 = Raise (SystemExit 1) /\ missing_authors run.2 = ["bob"].
Proof. vm_compute. done. Qed.

Example run_dead_avatar :
  let authors := [("alice", DMap {["avatar" := "https://dead.example/x"]})] in
  let net := fun (_ : list string) url =>
    if String.eqb url "https://dead.example/x" then Response 404 else Response 200 in
  let run := main net elements authors [] start in
  run.1 = Raise (SystemExit 1) /\
  failed_urls run.2 = ["alice.avatar: https://dead.example/x (HTTP 404)"].
Proof. vm_compute. done. Qed.

Example run_skipped_website :
  let run := main net_github_only elements eve_on_x_com (registry_of ["eve"]) start in
  run.1 = Ok tt /\ requests run.2 = ["https://github.com/eve"] /\
  "  ⊘ Website URL skipped (x.com): https://x.com/eve" ∈ stdout run.2.
Proof. vm_compute. split_and!; [done..|]. do 5 right. left. Qed.

Example run_null_details :
  let run := main net_ok elements eve_then_null (registry_of ["eve"]) start in
  run.1 = Raise (TypeError "argument of type 'NoneType' is not iterable") /\
  last (stdout run.2) = Some "Checking URLs for nobody...".
Proof. vm_compute. done. Qed.

Example skips_other_hosts :
  check_url net_down "https://max.com/" start =
    (Ok (true, Some "skipped (x.com)"), start) /\
  check_url net_down "https://good.example/files/x.com.png" start =
    (Ok (true, Some "skipped (x.com)"), start) /\
  url_host "https://max.com/" = Some "max.com" /\
  url_host "https://good.example/files/x.com.png" = Some "good.example".
Proof. vm_compute. done. Qed.

(** * Further properties of the script *)

(** ** The two checks, in full *)

(** X1: [check_github_handle] always makes exactly one request, for the
    profile page of the handle (the x.com rule of [check_url] does not
    apply to it).  When that request returns a response or raises a
    [RequestException], the check returns a pair: success exactly when the
    request is answered with a status below 400, then without a reason;
    and on failure always with one. *)
Theorem check_github_handle_total (net : list string -> string -> head_outcome)
    (username : string) (s : state) (outcome : head_outcome) :
  net (requests s) (profile_url username) = outcome ->
  exists success error,
    check_github_handle net username s =
      (Ok (success, error), log_request (profile_url username) s) /\
    (success = true <-> succeeds outcome) /\
    (success = true -> error = None) /\
    (success = false -> exists reason, error = Some reason).
Proof.
  intros Hnet.
  unfold check_github_handle, mbind, M_bind, requests_head. rewrite Hnet.
  destruct outcome as [c|e]; cbn [succeeds].
  - destruct (Z.eqb_spec c 404) as [->|Hc]; [|destruct (Z.geb_spec c 400)].
    + exists false, (Some "GitHub profile not found").
      split_and!; [done | split; [done|lia] | done | eauto].
    + exists false, (Some ("HTTP " +:+ pretty c)).
      split_and!; [done | split; [done|lia] | done | eauto].
    + exists true, None. split_and!; [done | split; [lia|done] | done | done].
  - exists false, (Some e). split_and!; [done | done | done | eauto].
Qed.

(** X2: [check_url] makes no request when "x.com" occurs in the URL and
    exactly one, for the URL itself, otherwise.  When that request returns
    a response or raises a [RequestException], the check returns a pair:
    success exactly when it skips or the request is answered with a status
    below 400, and on failure always with a reason. *)
Theorem check_url_total (net : list string -> string -> head_outcome)
    (url : string) (s : state) (outcome : head_outcome) :
  net (requests s) url = outcome ->
  exists success error s',
    check_url net url s = (Ok (success, error), s') /\
    (occurs_in "x.com" url -> s' = s) /\
    (~ occurs_in "x.com" url -> s' = log_request url s) /\
    (success = true <-> occurs_in "x.com" url \/ succeeds outcome) /\
    (success = false -> exists reason, error = Some reason).
Proof.
  intros Hnet.
  destruct (str_contains "x.com" url) eqn:Hx.
  - assert (occurs_in "x.com" url) as Hocc by (by apply str_contains_true_iff).
    rewrite check_url_skips by done.
    exists true, (Some "skipped (x.com)"), s.
    split_and!; [done | done | done | | done].
    split; auto.
  - assert (~ occurs_in "x.com" url) as Hocc.
    { intros H. apply str_contains_true_iff in H. congruence. }
    rewrite check_url_requests by done. rewrite Hnet.
    destruct outcome as [c|e]; cbn [succeeds].
    + destruct (Z.geb_spec c 400).
      * exists false, (Some ("HTTP " +:+ pretty c)), (log_request url s).
        split_and!; [done | done | done | | eauto].
        split; [done|]. intros [|]; [done|lia].
      * exists true, None, (log_request url s).
        split_and!; [done | done | done | | done].
        split; [auto with lia | done].
    + exists false, (Some e), (log_request url s).
      split_and!; [done | done | done | | eauto].
      split; [done|]. intros [|[]]; done.
Qed.

(** ** What the lists hold *)

Section Entries.

Variable answer : string -> head_outcome.
Variable set_iter : gset string -> list string.

Let net : list string -> string -> head_outcome := fun _ => answer.

Lemma step1_body_entry (username : string) (s : state) :
  failed_handles (step1_body net username s).2 =
    failed_handles s ++ option_list (handle_entry answer username).
Proof.
  unfold handle_entry, step1_body, check_github_handle, net. run.
  destruct (answer (profile_url username)) as [c|e]; simpl.
  - destruct (c =? 404); [|destruct (c >=? 400)]; simpl; by rewrite ?app_nil_r.
  - done.
Qed.

Lemma for_each_step1_entries (usernames : list string) (s : state) :
  failed_handles (for_each usernames (step1_body net) s).2 =
    failed_handles s ++ omap (handle_entry answer) usernames.
Proof.
  revert s. induction usernames as [|u us IH]; intros s.
  - simpl. by rewrite app_nil_r.
  - cbn [for_each]. unfold mbind at 1, M_bind at 1.
    pose proof (step1_body_entry u s) as Hu.
    destruct (step1_body_run net u s) as (s1 & Hrun & _).
    rewrite Hrun in Hu |- *. cbn [snd] in Hu. rewrite IH, Hu.
    cbn [omap list_omap]. rewrite <- app_assoc. f_equal.
    by destruct (handle_entry answer u).
Qed.

Lemma check_field_entry (field label username : string)
    (fields : gmap string string) (s : state) :
  failed_urls (check_field net field label username (DMap fields) s).2 =
    failed_urls s ++ option_list (url_entry answer username field (DMap fields)).
Proof.
  unfold url_entry, check_field, contains, getitem, mbind, M_bind, mret, M_ret.
  destruct (fields !! field) as [url|] eqn:Hf.
  2:{ rewrite bool_decide_false by (by intros [? ?]). simpl. by rewrite app_nil_r. }
  rewrite bool_decide_true by eauto.
  destruct (str_contains "x.com" url) eqn:Hx.
  - rewrite !check_url_skips by (by apply str_contains_true_iff).
    simpl. by rewrite app_nil_r.
  - rewrite !check_url_requests by done. unfold net.
    destruct (answer url) as [c|e]; [destruct (c >=? 400)|]; simpl;
      by rewrite ?app_nil_r.
Qed.

Lemma step2_body_entries (username : string) (fields : gmap string string)
    (s : state) :
  failed_urls (step2_body net (username, DMap fields) s).2 =
    failed_urls s ++ url_entries answer (username, DMap fields).
Proof.
  unfold step2_body, url_entries, mbind, M_bind, print. cbv beta iota.
  pose proof (check_field_entry "website" "Website" username fields
                (printed ("Checking URLs for " +:+ username +:+ "...") s)) as H1.
  destruct (check_field_run net "website" "Website" username fields
              (printed ("Checking URLs for " +:+ username +:+ "...") s))
    as (s1 & Hrun1 & _).
  rewrite Hrun1 in H1 |- *. cbn [snd] in H1.
  rewrite check_field_entry, H1. cbn [fst snd printed failed_urls].
  by rewrite <- app_assoc.
Qed.

Lemma for_each_step2_entries (authors : AuthorsFile) (s : state) :
  all_mappings authors ->
  failed_urls (for_each authors (step2_body net) s).2 =
    failed_urls s ++ (authors ≫= url_entries answer).
Proof.
  revert s. induction authors as [|[u d] authors IH]; intros s Hmap.
  - simpl. by rewrite app_nil_r.
  - apply all_mappings_cons in Hmap as [[fields ->] Hmap].
    cbn [for_each]. unfold mbind at 1, M_bind at 1.
    pose proof (step2_body_entries u fields s) as Hu.
    destruct (step2_body_run net u fields s) as (s1 & Hrun & _).
    rewrite Hrun in Hu |- *. cbn [snd] in Hu. rewrite IH, Hu by done.
    cbn [mbind list_bind]. by rewrite <- app_assoc.
Qed.

End Entries.

Section Lists.

Variable answer : string -> head_outcome.
Variable set_iter : gset string -> list string.

Lemma step1_unfold (net : list string -> string -> head_outcome)
    (authors : AuthorsFile) (s : state) :
  step1 net authors s =
    for_each authors.*1 (step1_body net)
             (printed ("=== Verifying GitHub Handles ===" +:+ nl) s).
Proof. reflexivity. Qed.

Lemma step1_entries (authors : AuthorsFile) (s : state) :
  failed_handles (step1 (fun _ => answer) authors s).2 =
    failed_handles s ++ omap (handle_entry answer) authors.*1.
Proof. rewrite step1_unfold. by rewrite for_each_step1_entries. Qed.

Lemma step2_entries (authors : AuthorsFile) (s : state) :
  all_mappings authors ->
  failed_urls (step2 (fun _ => answer) authors s).2 =
    failed_urls s ++ (authors ≫= url_entries answer).
Proof. intros Hmap. rewrite step2_unfold. by rewrite for_each_step2_entries. Qed.

(** The three lists at the end of a run over well-formed files. *)
Lemma main_lists (authors : AuthorsFile) (registry : RegistryFile) (s0 : state) :
  all_mappings authors ->
  let s := (main (fun _ => answer) set_iter authors registry s0).2 in
  failed_handles s = omap (handle_entry answer) authors.*1 /\
  failed_urls s = authors ≫= url_entries answer /\
  missing_authors s =
    filter (fun a => a ∉ authors.*1)
           (sorted (set_iter (collect_registry_authors registry))).
Proof.
  intros Hmap s. subst s. rewrite main_unfold.
  pose proof (step1_entries authors (cleared s0)) as Hh.
  destruct (step1_run (fun _ => answer) authors (cleared s0))
    as (s1 & Hrun1 & _ & Hurl1 & Hmiss1 & _).
  rewrite Hrun1 in Hh |- *. cbn [snd cleared failed_handles app] in Hh.
  pose proof (step2_entries authors s1 Hmap) as Hu.
  destruct (step2_run (fun _ => answer) authors s1 Hmap)
    as (s2 & Hrun2 & _ & Hfh2 & Hmiss2 & _).
  rewrite Hrun2 in Hu |- *. cbn [snd] in Hu.
  rewrite step3_run.
  match goal with |- context [report ?s3] =>
    destruct (report_run s3) as (s & -> & _ & Hfh & Hurl & Hmiss & _) end.
  cbn [snd]. rewrite Hfh, Hurl, Hmiss.
  cbn [failed_handles failed_urls missing_authors].
  rewrite Hfh2, Hh, Hu, Hurl1, Hmiss2, Hmiss1. done.
Qed.

End Lists.

Lemma handle_entry_None (answer : string -> head_outcome) (username : string) :
  handle_entry answer username = None <-> succeeds (answer (profile_url username)).
Proof.
  unfold handle_entry, check_github_handle, mbind, M_bind, requests_head.
  cbn [start requests].
  destruct (answer (profile_url username)) as [c|e]; cbn [succeeds fst].
  - destruct (Z.eqb_spec c 404) as [->|Hc]; [|destruct (Z.geb_spec c 400)];
      cbn [mret M_ret fst]; split; try done; lia.
  - cbn [mret M_ret fst]. split; [done | intros []].
Qed.

Lemma url_entry_None (answer : string -> head_outcome) (username field : string)
    (fields : gmap string string) :
  url_entry answer username field (DMap fields) = None <->
  forall url, fields !! field = Some url -> str_contains "x.com" url = false ->
              succeeds (answer url).
Proof.
  unfold url_entry. destruct (fields !! field) as [url|] eqn:Hf.
  2:{ split; [intros _ url [=] | done]. }
  destruct (str_contains "x.com" url) eqn:Hx.
  - rewrite check_url_skips by (by apply str_contains_true_iff). cbn [fst].
    split; [|done]. intros _ url' [= <-] Hx'. congruence.
  - rewrite check_url_requests by done. cbn [fst start requests].
    destruct (answer url) as [c|e] eqn:Ha;
      [destruct (Z.geb_spec c 400) as [Hge|Hlt]|].
    + split; [done|]. intros H. specialize (H url eq_refl Hx).
      rewrite Ha in H. cbn [succeeds] in H. lia.
    + split; [|done]. intros _ url' [= <-] _. rewrite Ha. cbn [succeeds]. lia.
    + split; [done|]. intros H. specialize (H url eq_refl Hx).
      rewrite Ha in H. destruct H.
Qed.

Lemma elem_of_option_list_iff (mx : option string) (x : string) :
  x ∈ option_list mx <-> mx = Some x.
Proof.
  destruct mx as [y|]; simpl.
  - rewrite list_elem_of_singleton. split; congruence.
  - rewrite elem_of_nil. split; [done | discriminate].
Qed.

Lemma elem_of_urls_to_check (fields : gmap string string) (url : string) :
  url ∈ urls_to_check (DMap fields) <->
  (fields !! "website" = Some url \/ fields !! "avatar" = Some url) /\
  str_contains "x.com" url = false.
Proof.
  unfold urls_to_check. rewrite list_elem_of_filter, elem_of_app.
  rewrite !elem_of_option_list_iff. tauto.
Qed.

Lemma url_entries_nil (answer : string -> head_outcome) (username : string)
    (fields : gmap string string) :
  url_entries answer (username, DMap fields) = [] <->
  forall url, url ∈ urls_to_check (DMap fields) -> succeeds (answer url).
Proof.
  unfold url_entries. cbn [fst snd].
  split.
  - intros H. apply app_eq_nil in H as [Hw Ha].
    assert (url_entry answer username "website" (DMap fields) = None) as Hw'
      by (by destruct (url_entry answer username "website" (DMap fields))).
    assert (url_entry answer username "avatar" (DMap fields) = None) as Ha'
      by (by destruct (url_entry answer username "avatar" (DMap fields))).
    rewrite url_entry_None in Hw', Ha'.
    intros url [[Hf|Hf] Hx]%elem_of_urls_to_check; eauto.
  - intros H.
    assert (url_entry answer username "website" (DMap fields) = None) as ->.
    { apply url_entry_None. intros url Hf Hx. apply H, elem_of_urls_to_check. auto. }
    assert (url_entry answer username "avatar" (DMap fields) = None) as ->.
    { apply url_entry_None. intros url Hf Hx. apply H, elem_of_urls_to_check. auto. }
    done.
Qed.

Lemma omap_handle_entry_nil (answer : string -> head_outcome)
    (usernames : list string) :
  omap (handle_entry answer) usernames = [] <->
  forall url, url ∈ profile_url <$> usernames -> succeeds (answer url).
Proof.
  induction usernames as [|u us IH]; cbn [omap list_omap fmap list_fmap].
  - split; [|done]. intros _ url Hurl. by apply elem_of_nil in Hurl.
  - destruct (handle_entry answer u) as [entry|] eqn:He.
    + split; [done|]. intros H.
      assert (handle_entry answer u = None) as Hn
        by (apply handle_entry_None, H; left).
      congruence.
    + apply handle_entry_None in He. rewrite IH. split.
      * intros H url [->|Hurl]%elem_of_cons; auto.
      * intros H url Hurl. apply H. by right.
Qed.

Lemma bind_url_entries_nil (answer : string -> head_outcome) (authors : AuthorsFile) :
  all_mappings authors ->
  authors ≫= url_entries answer = [] <->
  forall url, url ∈ authors.*2 ≫= urls_to_check -> succeeds (answer url).
Proof.
  induction authors as [|[u d] authors IH]; intros Hmap.
  - split; [|done]. intros _ url Hurl. by apply elem_of_nil in Hurl.
  - apply all_mappings_cons in Hmap as [[fields ->] Hmap].
    cbn [mbind list_bind fmap list_fmap snd].
    split.
    + intros H. apply app_eq_nil in H as [H1 H2].
      rewrite url_entries_nil in H1. rewrite IH in H2 by done.
      intros url [Hurl|Hurl]%elem_of_app; auto.
    + intros H.
      assert (url_entries answer (u, DMap fields) = []) as ->.
      { apply url_entries_nil. intros url Hurl. apply H, elem_of_app. auto. }
      apply IH; [done|]. intros url Hurl. apply H, elem_of_app. auto.
Qed.

(** X3: when the answer to a request does not depend on the requests before
    it, the failed handles at the end of a run are the entries
    "handle (reason)" of the handles whose check fails, one per key of the
    authors file and in the order of the file.  This holds of every run,
    also of one that dies in step 2. *)
Theorem failed_handles_entries (answer : string -> head_outcome)
    (set_iter : gset string -> list string)
    (authors : AuthorsFile) (registry : RegistryFile) (s0 : state) :
  failed_handles (main (fun _ => answer) set_iter authors registry s0).2 =
    omap (handle_entry answer) authors.*1.
Proof.
  destruct (authors_cases authors) as [Hmap|(before & u & after & Heq & Hmap)].
  - by destruct (main_lists answer set_iter authors registry s0 Hmap) as (-> & _).
  - pose proof (step1_entries answer authors (cleared s0)) as Hh.
    subst authors.
    destruct (main_crash (fun _ => answer) set_iter before after u registry s0 Hmap)
      as (s1 & s2 & Hrun1 & Hrun2 & ->).
    rewrite Hrun1 in Hh. cbn [snd cleared failed_handles app] in Hh.
    destruct (step2_run (fun _ => answer) before s1 Hmap)
      as (s2' & Hrun2' & _ & Hfh2 & _).
    rewrite Hrun2 in Hrun2'. injection Hrun2' as <-.
    cbn [snd printed failed_handles]. by rewrite Hfh2.
Qed.

(** X4: under the same condition and with a mapping for every author, the
    failed URLs at the end of a run are the entries
    "handle.field: url (reason)" of the fields whose check fails: authors
    in the order of the file, the website before the avatar. *)
Theorem failed_urls_entries (answer : string -> head_outcome)
    (set_iter : gset string -> list string)
    (authors : AuthorsFile) (registry : RegistryFile) (s0 : state) :
  all_mappings authors ->
  failed_urls (main (fun _ => answer) set_iter authors registry s0).2 =
    authors ≫= url_entries answer.
Proof.
  intros Hmap.
  by destruct (main_lists answer set_iter authors registry s0 Hmap) as (_ & -> & _).
Qed.

Lemma missing_nil (set_iter : gset string -> list string)
    (authors : AuthorsFile) (registry : RegistryFile) :
  set_iteration set_iter ->
  filter (fun a => a ∉ authors.*1)
         (sorted (set_iter (collect_registry_authors registry))) = [] <->
  forall h, referenced registry h -> h ∈ authors.*1.
Proof.
  intros Hiter.
  assert (forall h, h ∈ sorted (set_iter (collect_registry_authors registry)) <->
                    referenced registry h) as Hmem.
  { intros h. unfold sorted.
    rewrite merge_sort_Permutation, (Hiter (collect_registry_authors registry)).
    rewrite elem_of_elements. apply elem_of_collect. }
  split.
  - intros Hnil h Hh. destruct (decide (h ∈ authors.*1)) as [|Hout]; [done|].
    exfalso. eapply filter_nil_not_elem_of; [exact Hnil | exact Hout |].
    by apply Hmem.
  - intros Href. apply elem_of_nil_inv. intros h Hh.
    apply list_elem_of_filter in Hh as [Hout Hin]. apply Hout, Href, Hmem, Hin.
Qed.

(** X5: the exit status, decided: over well-formed files and a network whose
    answers do not depend on earlier requests, a run exits with status 0
    exactly when every request it plans (one per handle, one per website
    or avatar that is not skipped) is answered with a status below 400 and
    every handle the registry refers to is a key of the authors file. *)
Theorem exit_zero_iff (answer : string -> head_outcome)
    (set_iter : gset string -> list string)
    (authors : AuthorsFile) (registry : RegistryFile) (s0 : state) :
  all_mappings authors ->
  set_iteration set_iter ->
  exit_status (main (fun _ => answer) set_iter authors registry s0).1 = 0 <->
  (forall url, url ∈ planned_requests authors -> succeeds (answer url)) /\
  (forall h, referenced registry h -> h ∈ authors.*1).
Proof.
  intros Hmap Hiter.
  destruct (main_lists answer set_iter authors registry s0 Hmap) as (Hh & Hu & Hm).
  destruct (main_run (fun _ => answer) set_iter authors registry s0 Hmap)
    as (s & Hrun & _).
  rewrite Hrun in Hh, Hu, Hm |- *. cbn [fst snd] in *.
  pose proof (omap_handle_entry_nil answer authors.*1) as Eh.
  pose proof (bind_url_entries_nil answer authors Hmap) as Eu.
  pose proof (missing_nil set_iter authors registry Hiter) as Em.
  rewrite <- Hh in Eh. rewrite <- Hu in Eu. rewrite <- Hm in Em.
  unfold planned_requests. case_bool_decide as Hall; cbn [exit_status].
  - split; [intros _|done]. destruct Hall as (H1 & H2 & H3).
    split; [|by apply Em]. intros url [|]%elem_of_app.
    + by apply Eh.
    + by apply Eu.
  - split; [done|]. intros [Hreq Href]. destruct Hall. split_and!.
    + apply Eh. intros url Hurl. apply Hreq, elem_of_app. auto.
    + apply Eu. intros url Hurl. apply Hreq, elem_of_app. auto.
    + by apply Em.
Qed.

(** ** How a run can end *)

(** X6: over files that follow the schema, and with requests that each
    return a response or raise a [RequestException], a run ends in one of
    three ways: [main] returns, it calls [sys.exit(1)], or the membership
    test of step 2 raises its [TypeError] on a null value, and the last
    happens exactly when some author has such a value.  In particular the
    subscript after the membership test raises no [KeyError], and the exit
    status is 0 or 1. *)
Theorem main_outcomes (net : list string -> string -> head_outcome)
    (set_iter : gset string -> list string)
    (authors : AuthorsFile) (registry : RegistryFile) (s0 : state) :
  let r := (main net set_iter authors registry s0).1 in
  let crash := Raise (TypeError "argument of type 'NoneType' is not iterable") in
  (r = Ok tt \/ r = Raise (SystemExit 1) \/ r = crash) /\
  (r = crash <-> exists username, (username, DNull) ∈ authors) /\
  (exit_status r = 0 \/ exit_status r = 1).
Proof.
  intros r crash. subst r crash.
  destruct (authors_cases authors) as [Hmap|(before & u & after & -> & Hmap)].
  - destruct (main_run net set_iter authors registry s0 Hmap) as (s & -> & _).
    cbn [fst]. case_bool_decide; cbn [exit_status]; split_and!; auto.
    + split; [done|]. intros [u Hu]. destruct (Hmap u Hu).
    + split; [done|]. intros [u Hu]. destruct (Hmap u Hu).
  - destruct (main_crash net set_iter before after u registry s0 Hmap)
      as (s1 & s2 & _ & _ & ->).
    cbn [fst exit_status]. split_and!; auto.
    split; [|done]. intros _. exists u. apply elem_of_app. right. left.
Qed.

(** X7: the run that dies on a null value: the handles of all the authors have
    been requested, but only the URLs of the authors before the null one;
    the authors after it are never looked at in step 2, the registry is
    never checked, and the last line printed is the "Checking URLs" line of
    the author with the null value. *)
Theorem crash_state (net : list string -> string -> head_outcome)
    (set_iter : gset string -> list string)
    (before after : AuthorsFile) (username : string)
    (registry : RegistryFile) (s0 : state) :
  all_mappings before ->
  let authors := before ++ (username, DNull) :: after in
  let s := (main net set_iter authors registry s0).2 in
  requests s =
    requests s0 ++ (profile_url <$> authors.*1) ++ (before.*2 ≫= urls_to_check) /\
  missing_authors s = [] /\
  last (stdout s) = Some ("Checking URLs for " +:+ username +:+ "...").
Proof.
  intros Hmap authors s. subst s.
  destruct (main_crash net set_iter before after username registry s0 Hmap)
    as (s1 & s2 & Hrun1 & Hrun2 & Hmain).
  fold authors in Hrun1, Hmain. rewrite Hmain. cbn [snd].
  destruct (step1_run net authors (cleared s0))
    as (s1' & Hrun1' & Hreq1 & _ & Hmiss1 & _).
  rewrite Hrun1 in Hrun1'. injection Hrun1' as <-.
  destruct (step2_run net before s1 Hmap)
    as (s2' & Hrun2' & Hreq2 & _ & Hmiss2 & _).
  rewrite Hrun2 in Hrun2'. injection Hrun2' as <-.
  cbn [printed requests missing_authors stdout].
  rewrite Hreq2, Hreq1, Hmiss2, Hmiss1. cbn [cleared requests missing_authors].
  rewrite <- app_assoc. split_and!; [done | done | apply last_snoc].
Qed.

(** ** The registry as a set *)

(** X8: a run depends on the registry only through the set of handles that its
    entries refer to: the order of the entries, the order of the handles
    within an entry, repetitions and entries without an [authors] field
    make no difference to the outcome, the lists or the output. *)
Theorem registry_as_set (net : list string -> string -> head_outcome)
    (set_iter : gset string -> list string)
    (authors : AuthorsFile) (registry registry' : RegistryFile) (s0 : state) :
  (forall h, referenced registry h <-> referenced registry' h) ->
  main net set_iter authors registry s0 = main net set_iter authors registry' s0.
Proof.
  intros Href.
  assert (collect_registry_authors registry = collect_registry_authors registry')
    as Heq.
  { apply set_eq. intros h. rewrite !elem_of_collect. apply Href. }
  unfold main, step3. by rewrite Heq.
Qed.

(** ** The lines of the report *)

Lemma report_list_exact (header : string) (entries : list string)
    (has_failures : bool) (s : state) :
  report_list header entries has_failures s =
    (Ok (has_failures || bool_decide (entries <> [])),
     mkState (stdout s ++ report_section header entries) (requests s)
             (failed_handles s) (failed_urls s) (missing_authors s)).
Proof.
  destruct entries as [|x entries].
  - simpl. rewrite orb_false_r, app_nil_r. by destruct s.
  - unfold report_list, mbind, M_bind, print at 1. cbv beta iota.
    rewrite for_each_print, orb_true_r. unfold printed, report_section.
    cbn [stdout requests failed_handles failed_urls missing_authors mret M_ret].
    by rewrite <- app_assoc.
Qed.

(** X9: the report names every failure: after what was printed before, it
    prints, for each non-empty list in turn (failed handles, failed URLs,
    missing authors), the header of the list and one line "  - entry" per
    entry in the order of the list, and then the success message if and
    only if all three lists are empty.  It prints nothing else and makes
    no request. *)
Theorem report_lines (s : state) :
  stdout (report s).2 =
    stdout s ++
    report_section (nl +:+ "❌ The following GitHub handles failed verification:")
                   (failed_handles s) ++
    report_section (nl +:+ "❌ The following URLs failed verification:")
                   (failed_urls s) ++
    report_section
      (nl +:+ "❌ The following authors are in registry.yaml but not in authors.yaml:")
      (missing_authors s) ++
    (if bool_decide (failed_handles s = [] /\ failed_urls s = [] /\
                     missing_authors s = [])
     then [success_message] else []) /\
  requests (report s).2 = requests s.
Proof.
  unfold report, mbind, M_bind, read. cbv beta iota zeta.
  rewrite report_list_exact. cbn [failed_urls].
  rewrite report_list_exact. cbn [missing_authors].
  rewrite report_list_exact. cbn [orb].
  destruct (failed_handles s) as [|h hs];
    destruct (failed_urls s) as [|u us];
    destruct (missing_authors s) as [|m ms];
    simpl; rewrite <- ?app_assoc; simpl; split; try done;
    rewrite ?app_nil_r; done.
Qed.

(** ** The number of requests *)




(** ** Instances of the further properties *)

Lemma all_mappings_alice_dead_avatar : all_mappings alice_dead_avatar.
Proof.
  intros u Hu. apply list_elem_of_singleton in Hu. discriminate.
Defined.

Lemma all_mappings_alice_with_website : all_mappings alice_with_website.
Proof.
  intros u Hu. apply list_elem_of_singleton in Hu. discriminate.
Defined.

Lemma failed_urls_entries_witness :
  all_mappings alice_dead_avatar /\
  failed_urls (main (fun _ => answer_dead_avatar) elements alice_dead_avatar
                    [] start).2 =
    alice_dead_avatar ≫= url_entries answer_dead_avatar.
Proof.
  split; [exact all_mappings_alice_dead_avatar|].
  exact (failed_urls_entries answer_dead_avatar elements alice_dead_avatar []
           start all_mappings_alice_dead_avatar).
Defined.

Example entries_sample :
  alice_dead_avatar ≫= url_entries answer_dead_avatar =
    ["alice.avatar: https://dead.example/x (HTTP 404)"] /\
  handle_entry (fun _ => Response 404) "ghost" =
    Some "ghost (GitHub profile not found)" /\
  handle_entry (fun _ => Response 301) "moved" = None.
Proof. vm_compute. done. Qed.

Lemma exit_zero_iff_witness :
  let answer := fun _ : string => Response 200 in
  all_mappings alice_with_website /\
  set_iteration elements /\
  (exit_status (main (fun _ => answer) elements alice_with_website
                     (registry_of ["alice"]) start).1 = 0 <->
   (forall url, url ∈ planned_requests alice_with_website -> succeeds (answer url)) /\
   (forall h, referenced (registry_of ["alice"]) h -> h ∈ alice_with_website.*1)).
Proof.
  intros answer.
  split_and!; [exact all_mappings_alice_with_website | exact set_iteration_elements|].
  exact (exit_zero_iff answer elements alice_with_website (registry_of ["alice"])
           start all_mappings_alice_with_website set_iteration_elements).
Defined.

Lemma crash_state_witness :
  all_mappings eve_on_x_com /\
  let s := (main net_ok elements (eve_on_x_com ++ [("nobody", DNull)])
                 (registry_of ["eve"]) start).2 in
  requests s =
    requests start ++
      (profile_url <$> (eve_on_x_com ++ [("nobody", DNull)]).*1) ++
      (eve_on_x_com.*2 ≫= urls_to_check) /\
  missing_authors s = [] /\
  last (stdout s) = Some "Checking URLs for nobody...".
Proof.
  split; [exact all_mappings_eve_on_x_com|].
  exact (crash_state net_ok elements eve_on_x_com [] "nobody"
           (registry_of ["eve"]) start all_mappings_eve_on_x_com).
Defined.

Lemma registry_spread_referenced (h : string) :
  referenced (registry_of ["bob"; "alice"; "bob"]) h <->
  referenced registry_spread h.
Proof.
  rewrite <- !elem_of_collect.
  assert (collect_registry_authors (registry_of ["bob"; "alice"; "bob"]) =
          collect_registry_authors registry_spread) as ->
    by (vm_compute; reflexivity).
  reflexivity.
Defined.

Lemma registry_as_set_witness :
  (forall h, referenced (registry_of ["bob"; "alice"; "bob"]) h <->
             referenced registry_spread h) /\
  main net_ok elements alice_plain (registry_of ["bob"; "alice"; "bob"]) start =
  main net_ok elements alice_plain registry_spread start.
Proof.
  split; [exact registry_spread_referenced|].
  exact (registry_as_set net_ok elements alice_plain
           (registry_of ["bob"; "alice"; "bob"]) registry_spread start
           registry_spread_referenced).
Defined.


Lemma check_github_handle_total_witness :
  net_status 301 (requests start) (profile_url "moved") = Response 301 /\
  exists success error,
    check_github_handle (net_status 301) "moved" start =
      (Ok (success, error), log_request (profile_url "moved") start) /\
    (success = true <-> succeeds (Response 301)) /\
    (success = true -> error = None) /\
    (success = false -> exists reason, error = Some reason).
Proof.
  split; [reflexivity|].
  apply (check_github_handle_total (net_status 301) "moved" start (Response 301)).
  reflexivity.
Defined.

Lemma check_url_total_witness :
  net_down (requests start) "https://good.example" =
    RequestException "Read timed out. (read timeout=10)" /\
  exists success error s',
    check_url net_down "https://good.example" start = (Ok (success, error), s') /\
    (occurs_in "x.com" "https://good.example" -> s' = start) /\
    (~ occurs_in "x.com" "https://good.example" ->
     s' = log_request "https://good.example" start) /\
    (success = true <->
       occurs_in "x.com" "https://good.example" \/
       succeeds (RequestException "Read timed out. (read timeout=10)")) /\
    (success = false -> exists reason, error = Some reason).
Proof.
  split; [reflexivity|].
  apply (check_url_total net_down "https://good.example" start
           (RequestException "Read timed out. (read timeout=10)")).
  reflexivity.
Defined.

(** ** Where the claims as first stated fail *)

(** C1 as first stated, of every run of [main]: an authors file whose only
    key has a null value, with every request answered 200, ends with
    status 1 and three empty lists. *)
Lemma main_exit_status_counterexample :
  let r := (main net_ok elements nobody_null [] start).1 in
  let s := (main net_ok elements nobody_null [] start).2 in
  exit_status r = 1 /\
  failed_handles s = [] /\ failed_urls s = [] /\ missing_authors s = [] /\
  ~ (exit_status r = 1 <->
       failed_handles s <> [] \/ failed_urls s <> [] \/ missing_authors s <> []).
Proof.
  vm_compute. split_and!; [done..|].
  intros [H _]. destruct (H eq_refl) as [|[|]]; done.
Qed.


